(** * goagen/codegen/types.go: Go type names, references and definitions

    A shallow embedding of the type rendering functions of
    [goagen/codegen/types.go] ([Goify], [PackagePrefix], [GoNativeType],
    [GoTypeDef], [GoPackageTypeName], [GoPackageTypeRef], [GoTypeName],
    [GoTypeRef], [WriteTabs], [Tempvar], [has]) together with the
    properties of the generated text.

    Conventions.
    - A Go [string] is a sequence of bytes: [String.string].
    - A Go [int] used as an indentation count is a [Z], and [int] has 64
      bits ([int_bits]).  [GoPackageTypeName] passes [tabs+1] down to the
      elements of arrays and maps and returns without writing [tabs]
      tabulations itself, so its sum wraps around as the sum of the code
      does ([succ_int]).  [GoTypeDef] forms [tabs+1] for the fields of an
      object only, and closes that object with [tabs] tabulations: where
      the sum of the code would wrap around, the closing line has
      [2^63-1] bytes to write and the call does not return a definition.
      There the model keeps the sum in [Z]; it gives the panic of the
      code when a field panics, and a text where the code runs out of
      memory.
    - A Go [panic] is the [Panic] result of the error monad [result].
    - A Go [map[string]T] is an association list of its bindings; the
      order in which [range] visits the keys is unspecified in Go and is
      a parameter ([range_keys]) of the development.
    - The [design] package is outside the source file.  Its data model is
      a closed inductive type (a nil type or attribute is not a value of
      it); [IsObject], [AllRequired] and [IsRequired] are modelled from
      their description, and [IsPrimitivePointer] is a parameter.
    - The renderers call one another in a cycle that structural
      recursion cannot follow call for call: [GoTypeDef] is the switch
      [GoTypeDef_switch] on the type of the attribute, and
      [GoPackageTypeName] reaches [GoPackageTypeRef] through its body
      [GoPackageTypeRef_with].  The section on the calls of the source
      proves the equations of the source for these definitions. *)

From Stdlib Require Import String Ascii List Bool NArith ZArith Lia.
From Stdlib Require Import Sorting.Permutation Sorting.Sorted Sorting.Mergesort.
From Stdlib Require Import Structures.Orders.
From Stdlib Require Import DecimalString DecimalZ DecimalPos.
From Stdlib Require HexadecimalString.
Import ListNotations.

Local Open Scope string_scope.

(** ** Characters that cannot be written inside a string literal *)

Definition LF : string := String (ascii_of_nat 10) EmptyString.
Definition TAB : string := String (ascii_of_nat 9) EmptyString.
Definition DQUOTE : string := String (ascii_of_nat 34) EmptyString.

(** ** Panics: a small error monad *)

Inductive result (A : Type) : Type :=
| Ok (a : A)
| Panic (msg : string).

Arguments Ok {A} a.
Arguments Panic {A} msg.

Definition bind {A B : Type} (r : result A) (k : A -> result B) : result B :=
  match r with
  | Ok a => k a
  | Panic msg => Panic msg
  end.

Definition rmap {A B : Type} (f : A -> B) (r : result A) : result B :=
  bind r (fun a => Ok (f a)).

Notation "x <- e ;; k" := (bind e (fun x => k))
  (at level 61, e at next level, right associativity).

(** ** Package unicode, on the runes of one byte

    [Goify] converts each byte [str[i]] to a rune, so every rune it tests
    lies in Latin-1.  The definitions below are the Latin-1 part of Go's
    [unicode] tables. *)

Module unicode.

Local Open Scope N_scope.

Definition rune := N.

Definition within (lo hi r : rune) : bool := (lo <=? r) && (r <=? hi).

(** [unicode.IsLetter]: categories Lu, Ll and Lo of Latin-1. *)
Definition IsLetter (r : rune) : bool :=
  within 65 90 r || within 97 122 r
  || (r =? 170) || (r =? 181) || (r =? 186)
  || within 192 214 r || within 216 246 r || within 248 255 r.

(** [unicode.IsDigit]: below U+0100 these are the ASCII digits. *)
Definition IsDigit (r : rune) : bool := within 48 57 r.

(** [unicode.ToUpper]: the micro sign maps to U+039C and y-diaeresis to
    U+0178; sharp s has no simple upper case. *)
Definition ToUpper (r : rune) : rune :=
  if within 97 122 r then r - 32
  else if r =? 181 then 924
  else if within 224 246 r || within 248 254 r then r - 32
  else if r =? 255 then 376
  else r.

(** [unicode.ToLower]. *)
Definition ToLower (r : rune) : rune :=
  if within 65 90 r then r + 32
  else if within 192 214 r || within 216 222 r then r + 32
  else r.

End unicode.

(** ** bytes.Buffer *)

Definition byte_of (n : N) : string := String (ascii_of_N n) EmptyString.

(** [bytes.Buffer.WriteRune]: appends the UTF-8 encoding of [r].  The
    runes written by [Goify] are below U+0800; the three byte form is
    given for completeness. *)
Definition WriteRune (b : string) (r : unicode.rune) : string :=
  (if r <? 128 then b ++ byte_of r
   else if r <? 2048 then
     b ++ byte_of (192 + r / 64) ++ byte_of (128 + r mod 64)
   else
     b ++ byte_of (224 + r / 4096) ++ byte_of (128 + (r / 64) mod 64)
       ++ byte_of (128 + r mod 64))%N.

(** [WriteTabs] writes [count] tabulation characters to [buf]; nothing
    when [count] is not positive. *)
Fixpoint WriteTabs_loop (buf : string) (n : nat) : string :=
  match n with
  | O => buf
  | S n' => WriteTabs_loop (buf ++ TAB) n'
  end.

Definition WriteTabs (buf : string) (count : Z) : string :=
  WriteTabs_loop buf (Z.to_nat count).

(** ** Goify *)

(** The reserved Go keywords and predeclared type names, as listed in the
    [reserved] table. *)
Definition reserved : list (string * bool) :=
  [ ("byte", true); ("complex128", true); ("complex64", true);
    ("float32", true); ("float64", true); ("int", true); ("int16", true);
    ("int32", true); ("int64", true); ("int8", true); ("rune", true);
    ("string", true); ("uint16", true); ("uint32", true); ("uint64", true);
    ("uint8", true);
    ("break", true); ("case", true); ("chan", true); ("const", true);
    ("continue", true); ("default", true); ("defer", true); ("else", true);
    ("fallthrough", true); ("for", true); ("func", true); ("go", true);
    ("goto", true); ("if", true); ("import", true); ("interface", true);
    ("map", true); ("package", true); ("range", true); ("return", true);
    ("select", true); ("struct", true); ("switch", true); ("type", true);
    ("var", true) ].

(** A Go map index [m[name]]: the binding of [name], if any. *)
Fixpoint lookup {A : Type} (name : string) (m : list (string * A)) : option A :=
  match m with
  | [] => None
  | (n, a) :: m' => if String.eqb n name then Some a else lookup name m'
  end.

(** [_, ok := reserved[res]]. *)
Definition is_reserved (res : string) : bool :=
  match lookup res reserved with
  | Some _ => true
  | None => false
  end.

(** The loop of [Goify]: [b] is the buffer, [firstWritten] and
    [nextUpper] the two flags, [str] the bytes still to be read. *)
Fixpoint Goify_loop (str : string) (firstUpper : bool)
    (b : string) (firstWritten nextUpper : bool) : string :=
  match str with
  | EmptyString => b
  | String c rest =>
    let r := N_of_ascii c in
    if (r =? 95)%N then
      Goify_loop rest firstUpper b firstWritten true
    else if unicode.IsLetter r || unicode.IsDigit r then
      if negb firstWritten then
        let r := if firstUpper then unicode.ToUpper r else unicode.ToLower r in
        Goify_loop rest firstUpper (WriteRune b r) true false
      else if nextUpper then
        Goify_loop rest firstUpper (WriteRune b (unicode.ToUpper r)) firstWritten false
      else
        Goify_loop rest firstUpper (WriteRune b r) firstWritten nextUpper
    else
      Goify_loop rest firstUpper b firstWritten nextUpper
  end.

(** The identifier assembled by the loop, before the empty and reserved
    checks. *)
Definition Goify_buffer (str : string) (firstUpper : bool) : string :=
  Goify_loop str firstUpper EmptyString false false.

Definition Goify (str : string) (firstUpper : bool) : string :=
  if String.eqb str "ok" && firstUpper then "OK"
  else if String.eqb str "id" && firstUpper then "ID"
  else
    let b := Goify_buffer str firstUpper in
    if Nat.eqb (String.length b) 0 then "_v"
    else
      let res := b in
      if is_reserved res then res ++ "_" else res.

(** ** Package design: the type tree

    The [design] package is not part of this file's source; what follows
    is the part of its data model that [types.go] reads. *)

(** [design.Kind], an unsigned integer.  The six kinds of primitive
    types are the ones [GoNativeType] names; [OtherKind value] stands for
    any other value of [Kind], [value] being its number, which is the
    number of none of the six. *)
Inductive Kind : Type :=
| BooleanKind | IntegerKind | NumberKind | StringKind | DateTimeKind | AnyKind
| OtherKind (value : N).

(** [dslengine.ValidationDefinition]; [types.go] builds and reads the
    required-fields validation only. *)
Inductive ValidationDefinition : Type :=
| RequiredValidationDefinition (Names : list string)
| OtherValidationDefinition.

(** [design.AttributeDefinition], over the type of its [Type] field. *)
Record AttributeDefinitionOf (T : Type) : Type := mkAttributeDefinition {
  Type_ : T;
  Description : string;
  Validations : list ValidationDefinition
}.

Arguments mkAttributeDefinition {T}.
Arguments Type_ {T}.
Arguments Description {T}.
Arguments Validations {T}.

(** [design.UserTypeDefinition]: an attribute definition with a name and
    the API versions the type is declared under. *)
Record UserTypeDefinitionOf (T : Type) : Type := mkUserTypeDefinition {
  AttributeDefinition_ : AttributeDefinitionOf T;
  TypeName : string;
  APIVersions : list string
}.

Arguments mkUserTypeDefinition {T}.
Arguments AttributeDefinition_ {T}.
Arguments TypeName {T}.
Arguments APIVersions {T}.

Scheme All for AttributeDefinitionOf.
Scheme All for UserTypeDefinitionOf.
Scheme All for prod.
Scheme All for list.

(** [design.DataType]: the closed set of node kinds the renderers switch
    on.  A media type embeds a user type definition. *)
Inductive DataType : Type :=
| Primitive (k : Kind)
| Array (ElemType : AttributeDefinitionOf DataType)
| Object (fields : list (string * AttributeDefinitionOf DataType))
| Hash (KeyType ElemType : AttributeDefinitionOf DataType)
| UserTypeDefinition (ut : UserTypeDefinitionOf DataType)
| MediaTypeDefinition (mt : UserTypeDefinitionOf DataType).

Definition AttributeDefinition : Type := AttributeDefinitionOf DataType.
Definition UserType : Type := UserTypeDefinitionOf DataType.
Definition ObjectFields : Type := list (string * AttributeDefinition).

(** [design.DataStructure]: what [GoTypeDef] accepts. *)
Inductive DataStructure : Type :=
| DSAttribute (a : AttributeDefinition)
| DSUserType (ut : UserType)
| DSMediaType (mt : UserType).

(** [ds.Definition()]. *)
Definition Definition_ (ds : DataStructure) : AttributeDefinition :=
  match ds with
  | DSAttribute a => a
  | DSUserType ut => AttributeDefinition_ ut
  | DSMediaType mt => AttributeDefinition_ mt
  end.

(** Modelled from the spec: [DataType.IsObject] of the design package
    (a named type is object-shaped when its underlying shape is an
    object; a bare object is; nothing else is). *)
Fixpoint IsObject (t : DataType) : bool :=
  match t with
  | Object _ => true
  | UserTypeDefinition ut => IsObject (Type_ (AttributeDefinition_ ut))
  | MediaTypeDefinition mt => IsObject (Type_ (AttributeDefinition_ mt))
  | _ => false
  end.

(** Modelled from the spec: [AttributeDefinition.AllRequired] of the
    design package, the names of all required-fields validations. *)
Fixpoint AllRequired_of (vs : list ValidationDefinition) : list string :=
  match vs with
  | [] => []
  | RequiredValidationDefinition names :: vs' => names ++ AllRequired_of vs'
  | OtherValidationDefinition :: vs' => AllRequired_of vs'
  end.

Definition AllRequired (a : AttributeDefinition) : list string :=
  AllRequired_of (Validations a).

(** [has] returns true if [slice] contains [val]. *)
Fixpoint has (slice : list string) (val : string) : bool :=
  match slice with
  | [] => false
  | s :: rest => if String.eqb s val then true else has rest val
  end.

(** Modelled from the spec: [AttributeDefinition.IsRequired] of the
    design package, membership in the required-field set. *)
Definition IsRequired (a : AttributeDefinition) (attName : string) : bool :=
  has (AllRequired a) attName.

(** ** sort.Strings: increasing byte-wise order *)

Module StringOrder <: TotalLeBool.
Definition t := string.
Definition leb := String.leb.
Definition leb_total : forall a1 a2, leb a1 a2 = true \/ leb a2 a1 = true :=
  String.leb_total.
End StringOrder.

Module StringSort := Sort StringOrder.

Definition sort_Strings (keys : list string) : list string :=
  StringSort.sort keys.

(** ** PackagePrefix and GoNativeType *)

Definition PackagePrefix (ut : UserType) (versioned : bool) (pkg : string) : string :=
  if negb versioned then EmptyString
  else if Nat.eqb (List.length (APIVersions ut)) 0 then pkg ++ "."
  else EmptyString.

(** [fmt.Sprintf] of an unsigned integer under the verb [%#v]: [0x]
    followed by its hexadecimal digits, in lower case.  A
    [design.Primitive] is such an integer, with no [GoString] method. *)
Definition Sprintf_sharp_v (value : N) : string :=
  "0x" ++ HexadecimalString.NilZero.string_of_uint (N.to_hex_uint value).

(** The switch on [actual.Kind()] of [GoNativeType] (lines 178-193). *)
Definition GoNativeType_Primitive (k : Kind) : result string :=
  match k with
  | BooleanKind => Ok "bool"
  | IntegerKind => Ok "int"
  | NumberKind => Ok "float64"
  | StringKind => Ok "string"
  | DateTimeKind => Ok "time.Time"
  | AnyKind => Ok "interface{}"
  | OtherKind value =>
    Panic ("goa bug: unknown primitive type " ++ Sprintf_sharp_v value)
  end.

Fixpoint GoNativeType (t : DataType) : result string :=
  match t with
  | Primitive k => GoNativeType_Primitive k
  | Array ElemType =>
    e <- GoNativeType (Type_ ElemType) ;;
    Ok ("[]" ++ e)
  | Object _ => Ok "map[string]interface{}"
  | Hash KeyType ElemType =>
    k <- GoNativeType (Type_ KeyType) ;;
    e <- GoNativeType (Type_ ElemType) ;;
    Ok ("map[" ++ k ++ "]" ++ e)
  | MediaTypeDefinition mt => GoNativeType (Type_ (AttributeDefinition_ mt))
  | UserTypeDefinition ut => GoNativeType (Type_ (AttributeDefinition_ ut))
  end.

(** ** Arithmetic on int *)

(** A Go [int] of [bits] bits (32 or 64, by platform): the value an
    arithmetic result wraps around to. *)
Definition wrap_int (bits : Z) (z : Z) : Z :=
  ((z + 2 ^ (bits - 1)) mod 2 ^ bits - 2 ^ (bits - 1))%Z.

(** The size of the [int] that counts tabulations. *)
Definition int_bits : Z := 64.

(** [tabs+1] on an [int]. *)
Definition succ_int (tabs : Z) : Z := wrap_int int_bits (tabs + 1).

(** ** GoTypeDef, GoPackageTypeName, GoPackageTypeRef *)

(** [field := actual[name]] followed by the code [k] that uses [field].
    A key that is not bound gives the nil attribute, whose first use
    panics. *)
Definition with_field {A B : Type} (k : A -> result B) (name : string)
  : list (string * A) -> result B :=
  fix find (m : list (string * A)) : result B :=
    match m with
    | [] => Panic "runtime error: invalid memory address or nil pointer dereference"
    | (n, field) :: m' => if String.eqb n name then k field else find m'
    end.

(** The name of a user or media type: [PackagePrefix(...) + Goify(TypeName, true)]. *)
Definition namedTypeName (ut : UserType) (versioned : bool) (defPkg : string) : string :=
  let pkgPrefix := PackagePrefix ut versioned defPkg in
  pkgPrefix ++ Goify (TypeName ut) true.

(** The serialization tags of the field [name] of [def] (lines 68-75). *)
Definition fieldTags (def : AttributeDefinition) (name : string) (jsonTags : bool) : string :=
  if jsonTags then
    let omit := if negb (IsRequired def name) then ",omitempty" else EmptyString in
    " `json:" ++ DQUOTE ++ name ++ omit ++ DQUOTE
      ++ " xml:" ++ DQUOTE ++ name ++ omit ++ DQUOTE ++ "`"
  else EmptyString.

(** The leading comment of a field (lines 76-79). *)
Definition fieldDesc (description : string) : string :=
  if negb (String.eqb description EmptyString)
  then "// " ++ description ++ LF
  else description.

(** The results of [f] on the elements of [l], in order; the first panic
    wins. *)
Fixpoint mapM {A B : Type} (f : A -> result B) (l : list A) : result (list B) :=
  match l with
  | [] => Ok []
  | a :: l' =>
    b <- f a ;;
    bs <- mapM f l' ;;
    Ok (b :: bs)
  end.

(** The strings of [l] written one after the other. *)
Fixpoint concat_strings (l : list string) : string :=
  match l with
  | [] => EmptyString
  | x :: l' => x ++ concat_strings l'
  end.

Section Codegen.

(** The order in which [for n := range actual] visits the keys of the
    object [actual]: some arrangement of its keys. *)
Variable range_keys : ObjectFields -> list string.

(** [def.IsPrimitivePointer(name)] of the design package: does the field
    [name] of the object attribute [def] hold a pointer to a primitive. *)
Variable IsPrimitivePointer : AttributeDefinition -> string -> bool.

(** The type switch of [GoTypeDef], on [t = def.Type] with
    [def = ds.Definition()]; a recursive call [GoTypeDef(a, ...)] on an
    attribute [a] enters the switch at [a.Type] and [a].  The calls
    [GoTypeName(t, nil, tabs)] on a primitive and
    [GoPackageTypeName(actual, ...)] on a user or media type are
    replaced by what they return there ([GoNativeType t] and
    [namedTypeName]); [GoTypeDef_Primitive_eq] and
    [GoTypeDef_UserType_eq] below give back the calls of the source. *)
Fixpoint GoTypeDef_switch (t : DataType) (def : AttributeDefinition)
    (versioned : bool) (defPkg : string) (tabs : Z) (jsonTags : bool)
    {struct t} : result string :=
  match t with
  | Primitive _ => GoNativeType t
  | Array ElemType =>
    d <- GoTypeDef_switch (Type_ ElemType) ElemType versioned defPkg tabs jsonTags ;;
    let d := if IsObject (Type_ ElemType) then "*" ++ d else d in
    Ok ("[]" ++ d)
  | Hash KeyType ElemType =>
    keyDef <- GoTypeDef_switch (Type_ KeyType) KeyType versioned defPkg tabs jsonTags ;;
    let keyDef := if IsObject (Type_ KeyType) then "*" ++ keyDef else keyDef in
    elemDef <- GoTypeDef_switch (Type_ ElemType) ElemType versioned defPkg tabs jsonTags ;;
    let elemDef := if IsObject (Type_ ElemType) then "*" ++ elemDef else elemDef in
    Ok ("map[" ++ keyDef ++ "]" ++ elemDef)
  | Object actual =>
    let buffer := "struct {" ++ LF in
    let keys := sort_Strings (range_keys actual) in
    buffer <-
      fold_left
        (fun (acc : result string) (name : string) =>
           buffer <- acc ;;
           let buffer := WriteTabs buffer (tabs + 1) in
           with_field
             (fun field : AttributeDefinition =>
                typedef <- GoTypeDef_switch (Type_ field) field
                             versioned defPkg (tabs + 1) jsonTags ;;
                let typedef :=
                  if IsObject (Type_ field) || IsPrimitivePointer def name
                  then "*" ++ typedef else typedef in
                let fname := Goify name true in
                let tags := fieldTags def name jsonTags in
                let desc := fieldDesc (Description field) in
                Ok (buffer ++ desc ++ fname ++ " " ++ typedef ++ tags ++ LF))
             name actual)
        keys (Ok buffer) ;;
    let buffer := WriteTabs buffer tabs in
    Ok (buffer ++ "}")
  | UserTypeDefinition actual => Ok (namedTypeName actual versioned defPkg)
  | MediaTypeDefinition actual => Ok (namedTypeName actual versioned defPkg)
  end.

Definition GoTypeDef (ds : DataStructure) (versioned : bool) (defPkg : string)
    (tabs : Z) (jsonTags : bool) : result string :=
  let def := Definition_ ds in
  let t := Type_ def in
  GoTypeDef_switch t def versioned defPkg tabs jsonTags.

(** The attribute [GoPackageTypeName] builds around a bare object. *)
Definition inlineAttribute (actual : DataType) (required : list string)
  : AttributeDefinition :=
  let att := mkAttributeDefinition actual EmptyString [] in
  if Nat.ltb 0 (List.length required) then
    let requiredVal := RequiredValidationDefinition required in
    mkAttributeDefinition (Type_ att) (Description att)
      (Validations att ++ [requiredVal])
  else att.

(** The body of [GoPackageTypeRef], over the function [typeName] it
    calls. *)
Definition GoPackageTypeRef_with
    (typeName : DataType -> list string -> bool -> string -> Z -> result string)
    (t : DataType) (required : list string) (versioned : bool)
    (defPkg : string) (tabs : Z) : result string :=
  match t with
  | UserTypeDefinition _ | MediaTypeDefinition _ =>
    let prefix := if IsObject t then "*" else EmptyString in
    n <- typeName t required versioned defPkg tabs ;;
    Ok (prefix ++ n)
  | Object _ =>
    n <- typeName t required versioned defPkg tabs ;;
    Ok ("*" ++ n)
  | _ => typeName t required versioned defPkg tabs
  end.

(** [GoPackageTypeName]: a call [GoPackageTypeRef(t', ...)] on the type
    of an element is [GoPackageTypeRef_with GoPackageTypeName t' ...]. *)
Fixpoint GoPackageTypeName (t : DataType) (required : list string)
    (versioned : bool) (defPkg : string) (tabs : Z) {struct t} : result string :=
  match t with
  | Primitive _ => GoNativeType t
  | Array ElemType =>
    e <- GoPackageTypeRef_with GoPackageTypeName
           (Type_ ElemType) (AllRequired ElemType) versioned defPkg (succ_int tabs) ;;
    Ok ("[]" ++ e)
  | Object _ =>
    let att := inlineAttribute t required in
    GoTypeDef (DSAttribute att) versioned defPkg tabs false
  | Hash KeyType ElemType =>
    k <- GoPackageTypeRef_with GoPackageTypeName
           (Type_ KeyType) (AllRequired KeyType) versioned defPkg (succ_int tabs) ;;
    e <- GoPackageTypeRef_with GoPackageTypeName
           (Type_ ElemType) (AllRequired ElemType) versioned defPkg (succ_int tabs) ;;
    Ok ("map[" ++ k ++ "]" ++ e)
  | UserTypeDefinition actual => Ok (namedTypeName actual versioned defPkg)
  | MediaTypeDefinition actual => Ok (namedTypeName actual versioned defPkg)
  end.

Definition GoPackageTypeRef : DataType -> list string -> bool -> string -> Z
                              -> result string :=
  GoPackageTypeRef_with GoPackageTypeName.

Definition GoTypeName (t : DataType) (required : list string) (tabs : Z)
  : result string :=
  GoPackageTypeName t required false EmptyString tabs.

Definition GoTypeRef (t : DataType) (required : list string) (tabs : Z)
  : result string :=
  GoPackageTypeRef t required false EmptyString tabs.

(** What one iteration of the field loop of [GoTypeDef] appends to the
    buffer for the key [name] of the object [actual] of [def]. *)
Definition fieldEntry (def : AttributeDefinition) (actual : ObjectFields)
    (versioned : bool) (defPkg : string) (tabs : Z) (jsonTags : bool)
    (name : string) : result string :=
  with_field
    (fun field : AttributeDefinition =>
       typedef <- GoTypeDef (DSAttribute field) versioned defPkg (tabs + 1) jsonTags ;;
       let typedef :=
         if IsObject (Type_ field) || IsPrimitivePointer def name
         then "*" ++ typedef else typedef in
       Ok (WriteTabs EmptyString (tabs + 1) ++ fieldDesc (Description field)
             ++ Goify name true ++ " " ++ typedef
             ++ fieldTags def name jsonTags ++ LF))
    name actual.

(** The text of a struct whose field entries are [entries]. *)
Definition structText (entries : list string) (tabs : Z) : string :=
  "struct {" ++ LF ++ concat_strings entries ++ WriteTabs EmptyString tabs ++ "}".

End Codegen.

(** ** Instances and predicates used by the statements *)

(** The keys in the order of the association list: one possible order of
    [range]. *)
Definition range_listed (m : ObjectFields) : list string := map fst m.

(** The keys in the opposite order: another possible order of [range]. *)
Definition range_reversed (m : ObjectFields) : list string := rev (map fst m).

Definition IsPrimitive (t : DataType) : bool :=
  match t with
  | Primitive _ => true
  | _ => false
  end.

Definition ToObject (t : DataType) : ObjectFields :=
  match t with
  | Object fields => fields
  | _ => []
  end.

(** Modelled from the spec: [AttributeDefinition.IsPrimitivePointer] of
    the design package, in the reading used by the examples: an optional
    (not required) field of primitive type is held by pointer.  Every
    theorem below is stated for an arbitrary [IsPrimitivePointer]. *)
Definition IsPrimitivePointer_optional (def : AttributeDefinition) (attName : string) : bool :=
  match lookup attName (ToObject (Type_ def)) with
  | Some att => IsPrimitive (Type_ att) && negb (IsRequired def attName)
  | None => false
  end.

(** Byte-wise order of Go strings, as a proposition. *)
Definition string_le (a b : string) : Prop := String.leb a b = true.

(** The lines of a text: the pieces between line feeds. *)
Fixpoint lines_from (cur : string) (s : string) : list string :=
  match s with
  | EmptyString => [cur]
  | String c rest =>
    if Ascii.eqb c (ascii_of_nat 10) then cur :: lines_from EmptyString rest
    else lines_from (cur ++ String c EmptyString) rest
  end.

Definition lines (s : string) : list string := lines_from EmptyString s.

(** Every line of [s] but the first starts with [tabs] tabulations. *)
Definition indented_after_first_line (tabs : Z) (s : string) : bool :=
  forallb (String.prefix (WriteTabs EmptyString tabs)) (tl (lines s)).

(** Does the text contain the byte [c]. *)
Fixpoint contains (c : ascii) (s : string) : bool :=
  match s with
  | EmptyString => false
  | String x rest => Ascii.eqb x c || contains c rest
  end.

(** Does the text contain a backquote, the delimiter of a struct tag. *)
Definition has_backquote (s : string) : bool := contains "`"%char s.

(** The byte [c0] is in no encoding of a letter or digit of Latin-1, of
    its upper case or of its lower case. *)
Definition never_written (c0 : ascii) : Prop :=
  forall c : ascii,
    unicode.IsLetter (N_of_ascii c) || unicode.IsDigit (N_of_ascii c) = true ->
    contains c0 (WriteRune EmptyString (N_of_ascii c)) = false
    /\ contains c0 (WriteRune EmptyString (unicode.ToUpper (N_of_ascii c))) = false
    /\ contains c0 (WriteRune EmptyString (unicode.ToLower (N_of_ascii c))) = false.

Ltac enumerate_bytes :=
  intros c; destruct c as [[] [] [] [] [] [] [] []]; vm_compute;
  intros H; try discriminate H; repeat split.

(** No description reached by [GoTypeDef] below [t] holds a backquote:
    the descriptions of the fields of the objects nested in [t] through
    fields, array elements, map keys and map elements. *)
Fixpoint descriptions_plain (t : DataType) : bool :=
  match t with
  | Primitive _ => true
  | Array ElemType => descriptions_plain (Type_ ElemType)
  | Hash KeyType ElemType =>
    descriptions_plain (Type_ KeyType) && descriptions_plain (Type_ ElemType)
  | Object actual =>
    forallb (fun nf : string * AttributeDefinition =>
               negb (has_backquote (Description (snd nf)))
               && descriptions_plain (Type_ (snd nf))) actual
  | UserTypeDefinition _ => true
  | MediaTypeDefinition _ => true
  end.

(** The text holds no line feed. *)
Definition one_line (s : string) : bool := negb (contains (ascii_of_nat 10) s).

(** [n] tabulations. *)
Definition tabs_text (n : nat) : string := WriteTabs_loop EmptyString n.

(** A run of lines, each opened by a line feed and [n] tabulations. *)
Inductive Continued (n : nat) : string -> Prop :=
| Continued_end : Continued n EmptyString
| Continued_line (l c : string) :
    one_line l = true -> Continued n c ->
    Continued n (LF ++ tabs_text n ++ l ++ c).

(** A first line, then lines that each start with [n] tabulations. *)
Definition Indented (n : nat) (s : string) : Prop :=
  exists first rest,
    one_line first = true /\ Continued n rest /\ s = first ++ rest.

(** No field reached by [GoTypeDef] below [t] has a description, and,
    when tags are written, no field name holds a line feed. *)
Fixpoint no_descriptions (jsonTags : bool) (t : DataType) : bool :=
  match t with
  | Primitive _ => true
  | Array ElemType => no_descriptions jsonTags (Type_ ElemType)
  | Hash KeyType ElemType =>
    no_descriptions jsonTags (Type_ KeyType)
    && no_descriptions jsonTags (Type_ ElemType)
  | Object actual =>
    forallb (fun nf : string * AttributeDefinition =>
               String.eqb (Description (snd nf)) EmptyString
               && (negb jsonTags || one_line (fst nf))
               && no_descriptions jsonTags (Type_ (snd nf))) actual
  | UserTypeDefinition _ => true
  | MediaTypeDefinition _ => true
  end.

(** The struct tag of a field: the json and xml keys over the field name
    followed by [omit]. *)
Definition tagText (name omit : string) : string :=
  " `json:" ++ DQUOTE ++ name ++ omit ++ DQUOTE
    ++ " xml:" ++ DQUOTE ++ name ++ omit ++ DQUOTE ++ "`".

(** ** Example type trees *)

Definition attribute (t : DataType) : AttributeDefinition :=
  mkAttributeDefinition t EmptyString [].

Definition described (t : DataType) (description : string) : AttributeDefinition :=
  mkAttributeDefinition t description [].

(** A user type [foo] whose underlying shape is an object with one
    string field. *)
Definition example_user_object : UserType :=
  mkUserTypeDefinition
    (attribute (Object [("name", attribute (Primitive StringKind))]))
    "foo" [].

(** An array of [foo] values. *)
Definition example_array_of_user_object : DataType :=
  Array (attribute (UserTypeDefinition example_user_object)).

(** Two field names that [Goify] sends to the same identifier [AB]. *)
Definition example_collision : AttributeDefinition :=
  attribute (Object [("a_b", attribute (Primitive IntegerKind));
                     ("aB", attribute (Primitive StringKind))]).

(** Fields entered as b, a, c. *)
Definition example_bac : AttributeDefinition :=
  attribute (Object [("b", attribute (Primitive IntegerKind));
                     ("a", attribute (Primitive StringKind));
                     ("c", attribute (Primitive BooleanKind))]).

(** Fields [id] (required integer) and [name] (string). *)
Definition example_id_name : AttributeDefinition :=
  mkAttributeDefinition
    (Object [("id", attribute (Primitive IntegerKind));
             ("name", attribute (Primitive StringKind))])
    EmptyString [RequiredValidationDefinition ["id"]].

(** One field that carries a description. *)
Definition example_described_field : AttributeDefinition :=
  attribute (Object [("a", described (Primitive IntegerKind) "the a")]).

(** The same field without its description. *)
Definition example_plain_field : AttributeDefinition :=
  attribute (Object [("a", attribute (Primitive IntegerKind))]).

(** ** Tempvar *)

(** [fmt.Sprintf] of an integer under the verb [%d]: its decimal digits,
    after a minus sign when negative. *)
Definition Sprintf_d (z : Z) : string :=
  DecimalString.NilZero.string_of_int (Z.to_int z).

(** [Tempvar] on the value of the global [TempCount]: the name returned
    and the new value of [TempCount]. *)
Definition Tempvar (bits : Z) (TempCount : Z) : string * Z :=
  let TempCount := wrap_int bits (TempCount + 1) in
  ("tmp" ++ Sprintf_d TempCount, TempCount).

(** [n] calls of [Tempvar] in a row: the names in the order returned and
    the final value of [TempCount]. *)
Fixpoint Tempvar_calls (bits : Z) (n : nat) (TempCount : Z) : list string * Z :=
  match n with
  | O => ([], TempCount)
  | S n' =>
    let (name, TempCount) := Tempvar bits TempCount in
    let (names, TempCount) := Tempvar_calls bits n' TempCount in
    (name :: names, TempCount)
  end.

(** ** Predicates on type trees and identifiers *)

(** The list has no repeated string. *)
Fixpoint distinct (l : list string) : bool :=
  match l with
  | [] => true
  | x :: l' => negb (has l' x) && distinct l'
  end.

(** Every object reached by the renderers below [t] binds each of its
    field names once, as a Go map does. *)
Fixpoint unique_keys (t : DataType) : bool :=
  match t with
  | Primitive _ => true
  | Array ElemType => unique_keys (Type_ ElemType)
  | Hash KeyType ElemType =>
    unique_keys (Type_ KeyType) && unique_keys (Type_ ElemType)
  | Object actual =>
    distinct (map fst actual)
    && forallb (fun nf : string * AttributeDefinition =>
                  unique_keys (Type_ (snd nf))) actual
  | UserTypeDefinition _ => true
  | MediaTypeDefinition _ => true
  end.

Definition known_kind (k : Kind) : bool :=
  match k with
  | OtherKind _ => false
  | _ => true
  end.

(** Every primitive reached by [GoTypeDef] and [GoPackageTypeName] below
    [t] (through array elements, map keys and elements and object
    fields, not through the attribute of a user or media type) has one
    of the six primitive kinds. *)
Fixpoint kinds_known (t : DataType) : bool :=
  match t with
  | Primitive k => known_kind k
  | Array ElemType => kinds_known (Type_ ElemType)
  | Hash KeyType ElemType =>
    kinds_known (Type_ KeyType) && kinds_known (Type_ ElemType)
  | Object actual =>
    forallb (fun nf : string * AttributeDefinition =>
               kinds_known (Type_ (snd nf))) actual
  | UserTypeDefinition _ => true
  | MediaTypeDefinition _ => true
  end.

(** The number of a kind that is none of the six, if [k] is one. *)
Definition unknown_kind (k : Kind) : list N :=
  match k with
  | OtherKind value => [value]
  | _ => []
  end.

(** The numbers of the kinds, other than the six, of the primitives
    reached by [GoTypeDef] and [GoPackageTypeName] below [t]. *)
Fixpoint unknown_kinds (t : DataType) : list N :=
  match t with
  | Primitive k => unknown_kind k
  | Array ElemType => unknown_kinds (Type_ ElemType)
  | Hash KeyType ElemType =>
    unknown_kinds (Type_ KeyType) ++ unknown_kinds (Type_ ElemType)
  | Object actual =>
    flat_map (fun nf : string * AttributeDefinition =>
                unknown_kinds (Type_ (snd nf))) actual
  | UserTypeDefinition _ => []
  | MediaTypeDefinition _ => []
  end.

(** The first primitive with a kind other than the six that
    [GoNativeType] reaches below [t], if any, by the number of its kind:
    it looks through array elements, map keys before map elements and
    the attribute of a user or media type, not through object fields. *)
Fixpoint native_unknown_kind (t : DataType) : option N :=
  match t with
  | Primitive k =>
    match k with
    | OtherKind value => Some value
    | _ => None
    end
  | Array ElemType => native_unknown_kind (Type_ ElemType)
  | Hash KeyType ElemType =>
    match native_unknown_kind (Type_ KeyType) with
    | Some value => Some value
    | None => native_unknown_kind (Type_ ElemType)
    end
  | Object _ => None
  | UserTypeDefinition ut => native_unknown_kind (Type_ (AttributeDefinition_ ut))
  | MediaTypeDefinition mt => native_unknown_kind (Type_ (AttributeDefinition_ mt))
  end.

(** No bare object is reached below [t] through array elements and map
    keys and elements. *)
Fixpoint object_free (t : DataType) : bool :=
  match t with
  | Primitive _ => true
  | Array ElemType => object_free (Type_ ElemType)
  | Hash KeyType ElemType =>
    object_free (Type_ KeyType) && object_free (Type_ ElemType)
  | Object _ => false
  | UserTypeDefinition _ => true
  | MediaTypeDefinition _ => true
  end.

(** [t] is built from primitives, arrays and maps only. *)
Fixpoint plain (t : DataType) : bool :=
  match t with
  | Primitive _ => true
  | Array ElemType => plain (Type_ ElemType)
  | Hash KeyType ElemType => plain (Type_ KeyType) && plain (Type_ ElemType)
  | _ => false
  end.

(** Every byte of [s] satisfies [P]. *)
Fixpoint all_bytes (P : ascii -> bool) (s : string) : bool :=
  match s with
  | EmptyString => true
  | String c rest => P c && all_bytes P rest
  end.

Definition ascii_digit (c : ascii) : bool :=
  unicode.within 48%N 57%N (N_of_ascii c).

Definition ascii_lower (c : ascii) : bool :=
  unicode.within 97%N 122%N (N_of_ascii c).

Definition ascii_upper (c : ascii) : bool :=
  unicode.within 65%N 90%N (N_of_ascii c).

(** A byte of a Go identifier: an ASCII letter or digit, the underscore,
    or a byte of the UTF-8 encoding of a rune beyond ASCII. *)
Definition ident_byte (c : ascii) : bool :=
  ascii_upper c || ascii_lower c || ascii_digit c
  || (N_of_ascii c =? 95)%N || (128 <=? N_of_ascii c)%N.

(** The bytes the loop of [Goify] reads: underscores, letters and digits. *)
Definition read_byte (c : ascii) : bool :=
  (N_of_ascii c =? 95)%N
  || unicode.IsLetter (N_of_ascii c) || unicode.IsDigit (N_of_ascii c).

(** [str] without the bytes the loop of [Goify] skips. *)
Fixpoint strip (str : string) : string :=
  match str with
  | EmptyString => EmptyString
  | String c rest => if read_byte c then String c (strip rest) else strip rest
  end.

(** The first letter or digit of [str], if any. *)
Fixpoint first_written (str : string) : option ascii :=
  match str with
  | EmptyString => None
  | String c rest =>
    if unicode.IsLetter (N_of_ascii c) || unicode.IsDigit (N_of_ascii c)
    then Some c else first_written rest
  end.

(** A type tree with a primitive of unknown kind in an array. *)
Definition example_unknown_kind : AttributeDefinition :=
  attribute (Object [("a", attribute (Array (attribute (Primitive (OtherKind 99)))))]).

(** A map from strings to arrays of [foo] values. *)
Definition example_map_of_arrays : DataType :=
  Hash (attribute (Primitive StringKind))
       (attribute example_array_of_user_object).

(** The 256 byte values, and a check of all of them. *)
Definition byte_values : list ascii := map ascii_of_nat (seq 0 256).

Definition for_all_bytes (P : ascii -> bool) : bool := forallb P byte_values.

(** The text starts with a byte that is not a lower case ASCII letter. *)
Definition starts_not_lower (s : string) : bool :=
  match s with
  | EmptyString => false
  | String x _ => negb (ascii_lower x)
  end.

(** What is checked of the bytes written for the byte [c] when it is a
    letter or a digit. *)
Definition written_check (c : ascii) : bool :=
  let r := N_of_ascii c in
  implb (unicode.IsLetter r || unicode.IsDigit r)
    (all_bytes ident_byte (WriteRune EmptyString r)
     && all_bytes ident_byte (WriteRune EmptyString (unicode.ToUpper r))
     && all_bytes ident_byte (WriteRune EmptyString (unicode.ToLower r))
     && starts_not_lower (WriteRune EmptyString (unicode.ToUpper r))).

Definition digit_check (c : ascii) : bool :=
  let r := N_of_ascii c in
  implb (ascii_digit c)
    (String.eqb (WriteRune EmptyString (unicode.ToUpper r)) (String c EmptyString)
     && String.eqb (WriteRune EmptyString (unicode.ToLower r)) (String c EmptyString)).

(** * Properties *)

(** ** Strings and the error monad *)

Lemma append_assoc (a b c : string) : (a ++ b) ++ c = a ++ (b ++ c).
Proof.
  induction a as [|x a IH]; simpl; [reflexivity|].
  now rewrite IH.
Qed.

Lemma append_empty_r (a : string) : a ++ EmptyString = a.
Proof.
  induction a as [|x a IH]; simpl; [reflexivity|].
  now rewrite IH.
Qed.

Lemma WriteTabs_loop_append (n : nat) (buf : string) :
  WriteTabs_loop buf n = buf ++ WriteTabs_loop EmptyString n.
Proof.
  revert buf.
  induction n as [|n IH]; intros buf; simpl.
  - now rewrite append_empty_r.
  - rewrite (IH (buf ++ TAB)), (IH TAB).
    now rewrite append_assoc.
Qed.

Lemma WriteTabs_append (buf : string) (count : Z) :
  WriteTabs buf count = buf ++ WriteTabs EmptyString count.
Proof. apply WriteTabs_loop_append. Qed.

Lemma bind_Ok_r {A : Type} (r : result A) : bind r Ok = r.
Proof. now destruct r. Qed.

Lemma bind_assoc {A B C : Type} (r : result A) (f : A -> result B) (g : B -> result C) :
  bind (bind r f) g = bind r (fun a => bind (f a) g).
Proof. now destruct r. Qed.

Lemma bind_ext {A B : Type} (r : result A) (f g : A -> result B) :
  (forall a, f a = g a) -> bind r f = bind r g.
Proof. intros H. destruct r; simpl; auto. Qed.

(** ** sort.Strings *)

Lemma ascii_compare_trans_le (a b c : ascii) :
  Ascii.compare a b <> Gt -> Ascii.compare b c <> Gt -> Ascii.compare a c <> Gt.
Proof.
  unfold Ascii.compare.
  rewrite !N.compare_gt_iff.
  lia.
Qed.

Lemma string_leb_trans (a b c : string) :
  String.leb a b = true -> String.leb b c = true -> String.leb a c = true.
Proof.
  unfold String.leb.
  revert b c.
  induction a as [|x a IH]; intros [|y b] [|z c]; simpl; try congruence.
  destruct (Ascii.compare x y) eqn:Hxy; try congruence;
    destruct (Ascii.compare y z) eqn:Hyz; try congruence;
    intros Hab Hbc.
  - apply Ascii.compare_eq_iff in Hxy, Hyz. subst.
    assert (Hzz : Ascii.compare z z = Eq) by apply N.compare_refl.
    rewrite Hzz. now apply (IH b c).
  - apply Ascii.compare_eq_iff in Hxy. subst. now rewrite Hyz.
  - apply Ascii.compare_eq_iff in Hyz. subst. now rewrite Hxy.
  - assert (Hxz : Ascii.compare x z = Lt).
    { unfold Ascii.compare in *. rewrite N.compare_lt_iff in *. lia. }
    now rewrite Hxz.
Qed.

Lemma sort_Strings_perm (keys : list string) :
  Permutation (sort_Strings keys) keys.
Proof. symmetry. apply StringSort.Permuted_sort. Qed.

Lemma sort_Strings_sorted (keys : list string) :
  StronglySorted string_le (sort_Strings keys).
Proof.
  apply StringSort.StronglySorted_sort.
  intros a b c. apply string_leb_trans.
Qed.

(** Two sorted arrangements of the same keys are the same list. *)
Lemma sorted_perm_unique (l1 l2 : list string) :
  StronglySorted string_le l1 -> StronglySorted string_le l2 ->
  Permutation l1 l2 -> l1 = l2.
Proof.
  revert l2.
  induction l1 as [|a l1 IH]; intros l2 H1 H2 HP.
  - apply Permutation_nil in HP. now subst.
  - destruct l2 as [|b l2].
    + symmetry in HP. now apply Permutation_nil in HP.
    + inversion H1 as [|? ? S1 F1]; subst.
      inversion H2 as [|? ? S2 F2]; subst.
      assert (Hab : a = b).
      { assert (Ha : In a (b :: l2)).
        { apply (Permutation_in _ HP). now left. }
        assert (Hb : In b (a :: l1)).
        { apply (Permutation_in _ (Permutation_sym HP)). now left. }
        destruct Ha as [Ha|Ha]; [now subst|].
        destruct Hb as [Hb|Hb]; [now subst|].
        rewrite Forall_forall in F1, F2.
        apply String.leb_antisym; [apply (F1 _ Hb)|apply (F2 _ Ha)]. }
      subst b. f_equal.
      apply IH; auto.
      now apply Permutation_cons_inv in HP.
Qed.

(** The sorted keys do not depend on the order they were collected in. *)
Lemma sort_Strings_order_irrelevant (l1 l2 : list string) :
  Permutation l1 l2 -> sort_Strings l1 = sort_Strings l2.
Proof.
  intros HP.
  apply sorted_perm_unique; try apply sort_Strings_sorted.
  rewrite !sort_Strings_perm. exact HP.
Qed.

(** ** The bytes Goify writes *)

Lemma contains_append (c : ascii) (a b : string) :
  contains c (a ++ b) = contains c a || contains c b.
Proof.
  induction a as [|x a IH]; simpl; [reflexivity|].
  now rewrite IH, orb_assoc.
Qed.

Lemma has_backquote_append (a b : string) :
  has_backquote (a ++ b) = has_backquote a || has_backquote b.
Proof. apply contains_append. Qed.

Lemma has_backquote_WriteTabs_loop (n : nat) (buf : string) :
  has_backquote (WriteTabs_loop buf n) = has_backquote buf.
Proof.
  revert buf. induction n as [|n IH]; intros buf; simpl; [reflexivity|].
  rewrite IH, has_backquote_append. apply orb_false_r.
Qed.

Lemma has_backquote_WriteTabs (count : Z) :
  has_backquote (WriteTabs EmptyString count) = false.
Proof. apply has_backquote_WriteTabs_loop. Qed.

Lemma WriteRune_append (b : string) (r : unicode.rune) :
  WriteRune b r = b ++ WriteRune EmptyString r.
Proof.
  unfold WriteRune.
  destruct (r <? 128)%N; [reflexivity|].
  destruct (r <? 2048)%N; reflexivity.
Qed.

(** By enumeration of the 256 byte values. *)
Lemma backquote_never_written : never_written "`"%char.
Proof. enumerate_bytes. Qed.

Lemma underscore_never_written : never_written "_"%char.
Proof. enumerate_bytes. Qed.

(** The loop of [Goify] copies no byte that is never written. *)
Lemma Goify_loop_avoids (c0 : ascii) (str : string) (firstUpper : bool) :
  never_written c0 ->
  forall b firstWritten nextUpper,
    contains c0 b = false ->
    contains c0 (Goify_loop str firstUpper b firstWritten nextUpper) = false.
Proof.
  intros Hnever.
  induction str as [|c str IH]; intros b fw nu Hb; [exact Hb|].
  cbn [Goify_loop]. cbv zeta.
  destruct (N_of_ascii c =? 95)%N; [now apply IH|].
  destruct (unicode.IsLetter (N_of_ascii c) || unicode.IsDigit (N_of_ascii c)) eqn:E;
    [|now apply IH].
  destruct (Hnever c E) as (H0 & HU & HL).
  destruct fw; simpl negb; cbv iota.
  - destruct nu; apply IH; rewrite WriteRune_append, contains_append, Hb;
      [exact HU|exact H0].
  - destruct firstUpper; apply IH;
      rewrite WriteRune_append, contains_append, Hb; [exact HU|exact HL].
Qed.

(** The underscore is a word boundary: the loop does not copy it. *)
Lemma Goify_buffer_no_underscore (str : string) (firstUpper : bool) :
  contains "_"%char (Goify_buffer str firstUpper) = false.
Proof.
  apply Goify_loop_avoids; [exact underscore_never_written|reflexivity].
Qed.

(** A byte that is never written and is in none of the fixed results is
    in no result of [Goify]. *)
Lemma Goify_avoids (c0 : ascii) (str : string) (firstUpper : bool) :
  never_written c0 -> contains c0 "OK ID _v" = false ->
  contains c0 (Goify str firstUpper) = false.
Proof.
  intros Hnever Hfixed.
  change "OK ID _v" with ("OK" ++ " " ++ "ID" ++ " " ++ "_v") in Hfixed.
  rewrite !contains_append in Hfixed.
  apply orb_false_elim in Hfixed as [HOK Hfixed].
  apply orb_false_elim in Hfixed as [_ Hfixed].
  apply orb_false_elim in Hfixed as [HID Hfixed].
  apply orb_false_elim in Hfixed as [_ Hv].
  assert (Hu : contains c0 "_" = false).
  { change "_v" with ("_" ++ "v") in Hv. rewrite contains_append in Hv.
    now apply orb_false_elim in Hv as [Hu _]. }
  unfold Goify.
  destruct (String.eqb str "ok" && firstUpper); [exact HOK|].
  destruct (String.eqb str "id" && firstUpper); [exact HID|].
  cbv zeta.
  destruct (Nat.eqb _ 0); [exact Hv|].
  assert (Hb : contains c0 (Goify_buffer str firstUpper) = false).
  { apply Goify_loop_avoids; [exact Hnever|reflexivity]. }
  destruct (is_reserved _); [|exact Hb].
  rewrite contains_append. now rewrite Hb, Hu.
Qed.

Lemma Goify_no_backquote (str : string) (firstUpper : bool) :
  has_backquote (Goify str firstUpper) = false.
Proof.
  apply Goify_avoids; [exact backquote_never_written|reflexivity].
Qed.

Lemma linefeed_never_written : never_written (ascii_of_nat 10).
Proof. enumerate_bytes. Qed.

Lemma Goify_one_line (str : string) (firstUpper : bool) :
  one_line (Goify str firstUpper) = true.
Proof.
  unfold one_line.
  rewrite Goify_avoids; [reflexivity|exact linefeed_never_written|reflexivity].
Qed.

(** ** Goify *)

Lemma lookup_Some_In {A : Type} (name : string) (m : list (string * A)) (a : A) :
  lookup name m = Some a -> In name (map fst m).
Proof.
  induction m as [|[n b] m IH]; simpl; [discriminate|].
  destruct (String.eqb n name) eqn:E.
  - apply String.eqb_eq in E. now left.
  - intros H. right. now apply IH.
Qed.

Lemma is_reserved_In (res : string) :
  is_reserved res = true -> In res (map fst reserved).
Proof.
  unfold is_reserved.
  destruct (lookup res reserved) eqn:E; [|discriminate].
  intros _. now apply lookup_Some_In in E.
Qed.

(** A reserved word followed by an underscore is not reserved. *)
Lemma reserved_underscore (res : string) :
  is_reserved res = true -> is_reserved (res ++ "_") = false.
Proof.
  intros H. apply is_reserved_In in H.
  simpl in H.
  repeat (destruct H as [H|H]; [subst res; reflexivity|]).
  contradiction.
Qed.

Lemma append_underscore_neq (res : string) : res ++ "_" <> res.
Proof.
  induction res as [|c res IH]; simpl; [discriminate|].
  intros H. injection H as H. now apply IH.
Qed.

Lemma Goify_general (str : string) (firstUpper : bool) :
  (String.eqb str "ok" && firstUpper) = false ->
  (String.eqb str "id" && firstUpper) = false ->
  Goify str firstUpper =
    let b := Goify_buffer str firstUpper in
    if Nat.eqb (String.length b) 0 then "_v"
    else if is_reserved b then b ++ "_" else b.
Proof.
  intros H1 H2. unfold Goify. now rewrite H1, H2.
Qed.

Lemma Goify_reserved_buffer (str : string) (firstUpper : bool) :
  is_reserved (Goify_buffer str firstUpper) = true ->
  Goify str firstUpper = Goify_buffer str firstUpper ++ "_".
Proof.
  intros Hres.
  destruct (String.eqb str "ok" && firstUpper) eqn:H1.
  { apply andb_prop in H1 as [H1 H1']. apply String.eqb_eq in H1. subst.
    discriminate Hres. }
  destruct (String.eqb str "id" && firstUpper) eqn:H2.
  { apply andb_prop in H2 as [H2 H2']. apply String.eqb_eq in H2. subst.
    discriminate Hres. }
  rewrite (Goify_general _ _ H1 H2). cbv zeta.
  destruct (Goify_buffer str firstUpper) as [|c b]; [discriminate Hres|].
  simpl String.length. simpl Nat.eqb.
  now rewrite Hres.
Qed.

Lemma Goify_not_reserved (str : string) (firstUpper : bool) :
  is_reserved (Goify str firstUpper) = false.
Proof.
  unfold Goify.
  destruct (String.eqb str "ok" && firstUpper); [reflexivity|].
  destruct (String.eqb str "id" && firstUpper); [reflexivity|].
  cbv zeta.
  destruct (Nat.eqb (String.length (Goify_buffer str firstUpper)) 0); [reflexivity|].
  destruct (is_reserved (Goify_buffer str firstUpper)) eqn:E; [|exact E].
  now apply reserved_underscore.
Qed.

Lemma Goify_not_empty (str : string) (firstUpper : bool) :
  Goify str firstUpper <> EmptyString.
Proof.
  unfold Goify.
  destruct (String.eqb str "ok" && firstUpper); [discriminate|].
  destruct (String.eqb str "id" && firstUpper); [discriminate|].
  cbv zeta.
  destruct (Goify_buffer str firstUpper) as [|c b]; [discriminate|].
  simpl Nat.eqb. cbv iota.
  destruct (is_reserved _); discriminate.
Qed.

(** C7. The special cases of the identifier sanitizer: [ok] and [id]
    exported are [OK] and [ID]; [user_name] is [UserName], the underscore
    being a word boundary that the loop never copies; [_] gives the
    fallback [_v], and no result is empty; and whenever the identifier
    assembled by the loop is a reserved word, [Goify] returns it followed
    by an underscore, a result that differs from the bare word.  No
    result of [Goify] is a reserved word. *)
Theorem C7_Goify_special_cases :
  Goify "ok" true = "OK"
  /\ Goify "id" true = "ID"
  /\ Goify "user_name" true = "UserName"
  /\ Goify "_" true = "_v"
  /\ (forall str firstUpper,
        is_reserved (Goify_buffer str firstUpper) = true ->
        Goify str firstUpper = Goify_buffer str firstUpper ++ "_"
        /\ Goify str firstUpper <> Goify_buffer str firstUpper)
  /\ (forall str firstUpper, is_reserved (Goify str firstUpper) = false)
  /\ (forall str firstUpper, contains "_"%char (Goify_buffer str firstUpper) = false)
  /\ (forall str firstUpper, Goify str firstUpper <> EmptyString).
Proof.
  split; [reflexivity|]. split; [reflexivity|].
  split; [reflexivity|]. split; [reflexivity|].
  split.
  { intros str firstUpper H. split.
    - now apply Goify_reserved_buffer.
    - rewrite (Goify_reserved_buffer _ _ H). apply append_underscore_neq. }
  split; [exact Goify_not_reserved|].
  split; [exact Goify_buffer_no_underscore|exact Goify_not_empty].
Qed.

(** The keyword rule of C7 at the field name [type], unexported. *)
Lemma C7_Goify_witness_type :
  Goify "type" false = "type_" /\ Goify "type" false <> "type".
Proof.
  exact (proj1 (proj2 (proj2 (proj2 (proj2 C7_Goify_special_cases))))
           "type" false eq_refl).
Defined.

(** ** PackagePrefix *)

(** C8. [PackagePrefix] is empty when the reference site is not
    versioned; it is the default package followed by a dot when the site
    is versioned and the type has no API version; it is empty when the
    site is versioned and the type has API versions. *)
Theorem C8_PackagePrefix_cases (ut : UserType) (pkg : string) :
  PackagePrefix ut false pkg = EmptyString
  /\ (APIVersions ut = [] -> PackagePrefix ut true pkg = pkg ++ ".")
  /\ (APIVersions ut <> [] -> PackagePrefix ut true pkg = EmptyString).
Proof.
  unfold PackagePrefix. simpl.
  split; [reflexivity|].
  destruct (APIVersions ut) as [|v vs]; simpl; split; congruence.
Qed.

(** C8 on a type of the default package referenced from a version
    package [app]. *)
Lemma C8_PackagePrefix_witness :
  PackagePrefix example_user_object true "app" = "app.".
Proof.
  exact (proj1 (proj2 (C8_PackagePrefix_cases example_user_object "app")) eq_refl).
Defined.

(** ** The calls of the source

    The equations of the source that the fixpoints above unfold. *)

Section SourceEquations.

Variable range_keys : ObjectFields -> list string.
Variable IsPrimitivePointer : AttributeDefinition -> string -> bool.

Local Abbreviation GoTypeDef' := (GoTypeDef range_keys IsPrimitivePointer).
Local Abbreviation GoPackageTypeName' := (GoPackageTypeName range_keys IsPrimitivePointer).
Local Abbreviation GoPackageTypeRef' := (GoPackageTypeRef range_keys IsPrimitivePointer).
Local Abbreviation GoTypeName' := (GoTypeName range_keys IsPrimitivePointer).
Local Abbreviation GoTypeRef' := (GoTypeRef range_keys IsPrimitivePointer).

(** [case design.Primitive: return GoTypeName(t, nil, tabs)]. *)
Lemma GoTypeDef_Primitive_eq (ds : DataStructure) (k : Kind)
    (versioned : bool) (defPkg : string) (tabs : Z) (jsonTags : bool) :
  Type_ (Definition_ ds) = Primitive k ->
  GoTypeDef' ds versioned defPkg tabs jsonTags
  = GoTypeName' (Type_ (Definition_ ds)) [] tabs.
Proof. unfold GoTypeDef. cbv zeta. intros ->. reflexivity. Qed.

(** [case *design.UserTypeDefinition: return GoPackageTypeName(actual,
    actual.AllRequired(), versioned, defPkg, tabs)], and the same for a
    media type. *)
Lemma GoTypeDef_UserType_eq (ds : DataStructure) (actual : UserType)
    (versioned : bool) (defPkg : string) (tabs : Z) (jsonTags : bool) :
  Type_ (Definition_ ds) = UserTypeDefinition actual
  \/ Type_ (Definition_ ds) = MediaTypeDefinition actual ->
  GoTypeDef' ds versioned defPkg tabs jsonTags
  = GoPackageTypeName' (Type_ (Definition_ ds))
      (AllRequired (AttributeDefinition_ actual)) versioned defPkg tabs.
Proof. unfold GoTypeDef. cbv zeta. intros [-> | ->]; reflexivity. Qed.

(** [case *design.Array] of [GoTypeDef]. *)
Lemma GoTypeDef_Array_eq (ds : DataStructure) (ElemType : AttributeDefinition)
    (versioned : bool) (defPkg : string) (tabs : Z) (jsonTags : bool) :
  Type_ (Definition_ ds) = Array ElemType ->
  GoTypeDef' ds versioned defPkg tabs jsonTags
  = (d <- GoTypeDef' (DSAttribute ElemType) versioned defPkg tabs jsonTags ;;
     let d := if IsObject (Type_ ElemType) then "*" ++ d else d in
     Ok ("[]" ++ d)).
Proof. unfold GoTypeDef. cbv zeta. intros ->. reflexivity. Qed.

(** [case *design.Hash] of [GoTypeDef]. *)
Lemma GoTypeDef_Hash_eq (ds : DataStructure) (KeyType ElemType : AttributeDefinition)
    (versioned : bool) (defPkg : string) (tabs : Z) (jsonTags : bool) :
  Type_ (Definition_ ds) = Hash KeyType ElemType ->
  GoTypeDef' ds versioned defPkg tabs jsonTags
  = (keyDef <- GoTypeDef' (DSAttribute KeyType) versioned defPkg tabs jsonTags ;;
     let keyDef := if IsObject (Type_ KeyType) then "*" ++ keyDef else keyDef in
     elemDef <- GoTypeDef' (DSAttribute ElemType) versioned defPkg tabs jsonTags ;;
     let elemDef := if IsObject (Type_ ElemType) then "*" ++ elemDef else elemDef in
     Ok ("map[" ++ keyDef ++ "]" ++ elemDef)).
Proof. unfold GoTypeDef. cbv zeta. intros ->. reflexivity. Qed.

(** The body of [GoPackageTypeRef]. *)
Lemma GoPackageTypeRef_eq (t : DataType) (required : list string)
    (versioned : bool) (defPkg : string) (tabs : Z) :
  GoPackageTypeRef' t required versioned defPkg tabs
  = match t with
    | UserTypeDefinition _ | MediaTypeDefinition _ =>
      let prefix := if IsObject t then "*" else EmptyString in
      n <- GoPackageTypeName' t required versioned defPkg tabs ;;
      Ok (prefix ++ n)
    | Object _ =>
      n <- GoPackageTypeName' t required versioned defPkg tabs ;;
      Ok ("*" ++ n)
    | _ => GoPackageTypeName' t required versioned defPkg tabs
    end.
Proof. reflexivity. Qed.

(** [case *design.Array] of [GoPackageTypeName]. *)
Lemma GoPackageTypeName_Array_eq (ElemType : AttributeDefinition)
    (required : list string) (versioned : bool) (defPkg : string) (tabs : Z) :
  GoPackageTypeName' (Array ElemType) required versioned defPkg tabs
  = (e <- GoPackageTypeRef' (Type_ ElemType) (AllRequired ElemType)
            versioned defPkg (succ_int tabs) ;;
     Ok ("[]" ++ e)).
Proof. reflexivity. Qed.

(** [case *design.Hash] of [GoPackageTypeName]. *)
Lemma GoPackageTypeName_Hash_eq (KeyType ElemType : AttributeDefinition)
    (required : list string) (versioned : bool) (defPkg : string) (tabs : Z) :
  GoPackageTypeName' (Hash KeyType ElemType) required versioned defPkg tabs
  = (k <- GoPackageTypeRef' (Type_ KeyType) (AllRequired KeyType)
            versioned defPkg (succ_int tabs) ;;
     e <- GoPackageTypeRef' (Type_ ElemType) (AllRequired ElemType)
            versioned defPkg (succ_int tabs) ;;
     Ok ("map[" ++ k ++ "]" ++ e)).
Proof. reflexivity. Qed.

(** [case design.Object] of [GoPackageTypeName]. *)
Lemma GoPackageTypeName_Object_eq (actual : ObjectFields)
    (required : list string) (versioned : bool) (defPkg : string) (tabs : Z) :
  GoPackageTypeName' (Object actual) required versioned defPkg tabs
  = GoTypeDef' (DSAttribute (inlineAttribute (Object actual) required))
      versioned defPkg tabs false.
Proof. reflexivity. Qed.

(** A user or media type is named by its prefix and sanitized name. *)
Lemma GoPackageTypeName_named_eq (t : DataType) (actual : UserType)
    (required : list string) (versioned : bool) (defPkg : string) (tabs : Z) :
  t = UserTypeDefinition actual \/ t = MediaTypeDefinition actual ->
  GoPackageTypeName' t required versioned defPkg tabs
  = Ok (PackagePrefix actual versioned defPkg ++ Goify (TypeName actual) true).
Proof. intros [-> | ->]; reflexivity. Qed.

End SourceEquations.

(** ** The type reference resolver *)

(** The reference is the name, behind a star for object-shaped types. *)
Lemma GoPackageTypeRef_star
    (range_keys : ObjectFields -> list string)
    (IsPrimitivePointer : AttributeDefinition -> string -> bool)
    (t : DataType) (required : list string) (versioned : bool)
    (defPkg : string) (tabs : Z) :
  GoPackageTypeRef range_keys IsPrimitivePointer t required versioned defPkg tabs
  = rmap (fun n => if IsObject t then "*" ++ n else n)
      (GoPackageTypeName range_keys IsPrimitivePointer t required versioned defPkg tabs).
Proof.
  rewrite GoPackageTypeRef_eq. unfold rmap.
  destruct t as [k|e|fs|k e|ut|mt]; try (symmetry; apply bind_Ok_r).
  - reflexivity.
  - cbv zeta. destruct (IsObject (UserTypeDefinition ut)); reflexivity.
  - cbv zeta. destruct (IsObject (MediaTypeDefinition mt)); reflexivity.
Qed.

(** C5. [GoPackageTypeRef] returns the type name behind a star exactly
    for the object-shaped types: a bare object, and a user or media type
    whose underlying shape is an object.  For a primitive, an array, a
    map, and a user or media type of another shape it returns the type
    name itself.  [GoTypeRef] is the same in the default package. *)
Theorem C5_GoPackageTypeRef_indirection
    (range_keys : ObjectFields -> list string)
    (IsPrimitivePointer : AttributeDefinition -> string -> bool)
    (t : DataType) (required : list string) (versioned : bool)
    (defPkg : string) (tabs : Z) :
  GoPackageTypeRef range_keys IsPrimitivePointer t required versioned defPkg tabs
  = rmap (fun n => if IsObject t then "*" ++ n else n)
      (GoPackageTypeName range_keys IsPrimitivePointer t required versioned defPkg tabs)
  /\ GoTypeRef range_keys IsPrimitivePointer t required tabs
     = rmap (fun n => if IsObject t then "*" ++ n else n)
         (GoTypeName range_keys IsPrimitivePointer t required tabs)
  /\ (forall k, IsObject (Primitive k) = false)
  /\ (forall ElemType, IsObject (Array ElemType) = false)
  /\ (forall KeyType ElemType, IsObject (Hash KeyType ElemType) = false)
  /\ (forall actual, IsObject (Object actual) = true)
  /\ (forall ut, IsObject (UserTypeDefinition ut)
                 = IsObject (Type_ (AttributeDefinition_ ut)))
  /\ (forall mt, IsObject (MediaTypeDefinition mt)
                 = IsObject (Type_ (AttributeDefinition_ mt))).
Proof.
  repeat split; try reflexivity; apply GoPackageTypeRef_star.
Qed.

(** ** The type name synthesizer on arrays and maps *)

(** C1, as the code has it.  The name of an array is [[]] followed by
    the type reference ([GoPackageTypeRef]) of the element type, and the
    name of a map is built from the type references of its key and
    element types, each taken with the required fields of its own
    attribute and one more level of indentation.  The reference is the
    type name exactly when the type is not object-shaped, so for those
    element types the name of the array is [[]] followed by the type name
    of the element. *)
Theorem C1_GoPackageTypeName_containers
    (range_keys : ObjectFields -> list string)
    (IsPrimitivePointer : AttributeDefinition -> string -> bool)
    (KeyType ElemType : AttributeDefinition) (required : list string)
    (versioned : bool) (defPkg : string) (tabs : Z) :
  GoPackageTypeName range_keys IsPrimitivePointer (Array ElemType)
      required versioned defPkg tabs
  = rmap (append "[]")
      (GoPackageTypeRef range_keys IsPrimitivePointer (Type_ ElemType)
         (AllRequired ElemType) versioned defPkg (succ_int tabs))
  /\ GoPackageTypeName range_keys IsPrimitivePointer (Hash KeyType ElemType)
       required versioned defPkg tabs
     = (k <- GoPackageTypeRef range_keys IsPrimitivePointer (Type_ KeyType)
               (AllRequired KeyType) versioned defPkg (succ_int tabs) ;;
        e <- GoPackageTypeRef range_keys IsPrimitivePointer (Type_ ElemType)
               (AllRequired ElemType) versioned defPkg (succ_int tabs) ;;
        Ok ("map[" ++ k ++ "]" ++ e))
  /\ (IsObject (Type_ ElemType) = false ->
      GoPackageTypeName range_keys IsPrimitivePointer (Array ElemType)
        required versioned defPkg tabs
      = rmap (append "[]")
          (GoPackageTypeName range_keys IsPrimitivePointer (Type_ ElemType)
             (AllRequired ElemType) versioned defPkg (succ_int tabs)))
  /\ (IsObject (Type_ ElemType) = true ->
      GoPackageTypeName range_keys IsPrimitivePointer (Array ElemType)
        required versioned defPkg tabs
      = rmap (append "[]*")
          (GoPackageTypeName range_keys IsPrimitivePointer (Type_ ElemType)
             (AllRequired ElemType) versioned defPkg (succ_int tabs))).
Proof.
  split; [reflexivity|]. split; [reflexivity|].
  rewrite GoPackageTypeName_Array_eq.
  split; intros HO; rewrite GoPackageTypeRef_star, HO; unfold rmap;
    rewrite bind_assoc; reflexivity.
Qed.

(** The claim C1 as stated fails on an array of object-shaped values:
    the name of an array of [foo] values is [[]*Foo], not [[]] followed
    by the type name [Foo] of the element. *)
Lemma C1_counterexample_array_of_objects :
  GoPackageTypeName range_listed IsPrimitivePointer_optional
    example_array_of_user_object [] false EmptyString 0
  = Ok "[]*Foo"
  /\ rmap (append "[]")
       (GoPackageTypeName range_listed IsPrimitivePointer_optional
          (UserTypeDefinition example_user_object) [] false EmptyString 1)
     = Ok "[]Foo"
  /\ GoPackageTypeName range_listed IsPrimitivePointer_optional
       example_array_of_user_object [] false EmptyString 0
     <> rmap (append "[]")
          (GoPackageTypeName range_listed IsPrimitivePointer_optional
             (UserTypeDefinition example_user_object) [] false EmptyString 1).
Proof.
  split; [reflexivity|]. split; [reflexivity|].
  vm_compute. discriminate.
Qed.

(** C1 at the array of [foo] values. *)
Lemma C1_GoPackageTypeName_witness :
  GoPackageTypeName range_listed IsPrimitivePointer_optional
    example_array_of_user_object [] false EmptyString 0
  = rmap (append "[]*")
      (GoPackageTypeName range_listed IsPrimitivePointer_optional
         (UserTypeDefinition example_user_object) [] false EmptyString (succ_int 0)).
Proof.
  exact (proj2 (proj2 (proj2
           (C1_GoPackageTypeName_containers range_listed
              IsPrimitivePointer_optional
              (attribute (UserTypeDefinition example_user_object))
              (attribute (UserTypeDefinition example_user_object))
              [] false EmptyString 0)))
           eq_refl).
Defined.

(** ** The field loop of GoTypeDef *)

Lemma fold_left_Panic (body : result string -> string -> result string) :
  (forall msg name, body (Panic msg) name = Panic msg) ->
  forall keys msg, fold_left body keys (Panic msg) = Panic msg.
Proof.
  intros HP keys.
  induction keys as [|k keys IH]; intros msg; simpl; [reflexivity|].
  now rewrite HP.
Qed.

(** A loop that appends one entry per key writes the entries in the
    order of the keys. *)
Lemma fold_left_entries (body : result string -> string -> result string)
    (entry : string -> result string) :
  (forall b name, body (Ok b) name = (e <- entry name ;; Ok (b ++ e))) ->
  (forall msg name, body (Panic msg) name = Panic msg) ->
  forall keys b,
    fold_left body keys (Ok b)
    = (es <- mapM entry keys ;; Ok (b ++ concat_strings es)).
Proof.
  intros HO HP keys.
  induction keys as [|k keys IH]; intros b; simpl.
  - now rewrite append_empty_r.
  - rewrite HO.
    destruct (entry k) as [e|msg]; simpl.
    + rewrite IH.
      destruct (mapM entry keys) as [es|msg]; simpl; [|reflexivity].
      now rewrite append_assoc.
    + now apply fold_left_Panic.
Qed.

Lemma with_field_prefix {A : Type} (g : A -> result string) (b name : string)
    (m : list (string * A)) :
  with_field (fun field => e <- g field ;; Ok (b ++ e)) name m
  = (e <- with_field g name m ;; Ok (b ++ e)).
Proof.
  induction m as [|[n a] m IH]; simpl; [reflexivity|].
  destruct (String.eqb n name); [reflexivity|exact IH].
Qed.

Lemma with_field_ext {A B : Type} (f g : A -> result B) (name : string)
    (m : list (string * A)) :
  (forall n a, In (n, a) m -> f a = g a) ->
  with_field f name m = with_field g name m.
Proof.
  induction m as [|[n a] m IH]; intros H; simpl; [reflexivity|].
  destruct (String.eqb n name).
  - apply (H n a). now left.
  - apply IH. intros n' a' Hin. apply (H n' a'). now right.
Qed.

(** [case design.Object] of [GoTypeDef]: the struct text over the
    entries of the keys in sorted order. *)
Lemma GoTypeDef_switch_Object
    (range_keys : ObjectFields -> list string)
    (IsPrimitivePointer : AttributeDefinition -> string -> bool)
    (actual : ObjectFields) (def : AttributeDefinition)
    (versioned : bool) (defPkg : string) (tabs : Z) (jsonTags : bool) :
  GoTypeDef_switch range_keys IsPrimitivePointer (Object actual) def
    versioned defPkg tabs jsonTags
  = (entries <- mapM (fieldEntry range_keys IsPrimitivePointer def actual
                        versioned defPkg tabs jsonTags)
                  (sort_Strings (range_keys actual)) ;;
     Ok (structText entries tabs)).
Proof.
  cbn [GoTypeDef_switch].
  rewrite (fold_left_entries _
             (fieldEntry range_keys IsPrimitivePointer def actual
                versioned defPkg tabs jsonTags)).
  - rewrite bind_assoc. apply bind_ext. intros es. simpl bind.
    unfold structText. rewrite WriteTabs_append, !append_assoc. reflexivity.
  - intros b name. simpl bind at 1. unfold fieldEntry.
    rewrite <- with_field_prefix.
    apply with_field_ext. intros n a _.
    unfold GoTypeDef. cbv zeta. simpl Definition_.
    rewrite bind_assoc. apply bind_ext. intros typedef. simpl bind.
    rewrite WriteTabs_append, !append_assoc. reflexivity.
  - reflexivity.
Qed.

Lemma with_field_lookup {A B : Type} (k : A -> result B) (name : string)
    (m : list (string * A)) :
  with_field k name m
  = match lookup name m with
    | Some field => k field
    | None => Panic "runtime error: invalid memory address or nil pointer dereference"
    end.
Proof.
  induction m as [|[n a] m IH]; simpl; [reflexivity|].
  destruct (String.eqb n name); [reflexivity|exact IH].
Qed.

Lemma lookup_In {A : Type} (name : string) (m : list (string * A)) (a : A) :
  lookup name m = Some a -> In (name, a) m.
Proof.
  induction m as [|[n b] m IH]; simpl; [discriminate|].
  destruct (String.eqb n name) eqn:E.
  - apply String.eqb_eq in E. intros H. injection H as ->. subst. now left.
  - intros H. right. now apply IH.
Qed.

Lemma In_lookup {A : Type} (name : string) (m : list (string * A)) :
  In name (map fst m) -> exists a, lookup name m = Some a.
Proof.
  induction m as [|[n b] m IH]; simpl; [contradiction|].
  intros H.
  destruct (String.eqb n name) eqn:E; [now exists b|].
  destruct H as [H|H]; [|now apply IH].
  subst. now rewrite String.eqb_refl in E.
Qed.

Lemma mapM_ext {A B : Type} (f g : A -> result B) (l : list A) :
  (forall a, f a = g a) -> mapM f l = mapM g l.
Proof.
  intros H. induction l as [|a l IH]; simpl; [reflexivity|].
  now rewrite H, IH.
Qed.

Lemma mapM_Forall2 {A B : Type} (f : A -> result B) (l : list A) (es : list B) :
  mapM f l = Ok es -> Forall2 (fun a e => f a = Ok e) l es.
Proof.
  revert es.
  induction l as [|a l IH]; intros es; simpl.
  - intros H. injection H as <-. constructor.
  - destruct (f a) as [b|msg] eqn:Ea; simpl; [|discriminate].
    destruct (mapM f l) as [bs|msg]; simpl; [|discriminate].
    intros H. injection H as <-. constructor; auto.
Qed.

Lemma mapM_total {A B : Type} (f : A -> result B) (l : list A) :
  (forall a, In a l -> exists b, f a = Ok b) -> exists es, mapM f l = Ok es.
Proof.
  induction l as [|a l IH]; intros H; simpl.
  - now exists [].
  - destruct (H a) as [b Hb]; [now left|].
    destruct IH as [bs Hbs]; [intros a' Ha'; apply H; now right|].
    rewrite Hb, Hbs. now exists (b :: bs).
Qed.

Lemma Forall2_impl_In {A B : Type} (P Q : A -> B -> Prop) (l : list A) (l' : list B) :
  (forall a b, In a l -> P a b -> Q a b) -> Forall2 P l l' -> Forall2 Q l l'.
Proof.
  intros H HF.
  induction HF as [|a b l l' Hab HF IH]; constructor.
  - apply H; [now left|exact Hab].
  - apply IH. intros a' b' Ha'. apply H. now right.
Qed.

(** What an entry that was written consists of. *)
Lemma fieldEntry_Ok
    (range_keys : ObjectFields -> list string)
    (IsPrimitivePointer : AttributeDefinition -> string -> bool)
    (def : AttributeDefinition) (actual : ObjectFields)
    (versioned : bool) (defPkg : string) (tabs : Z) (jsonTags : bool)
    (name entry : string) :
  fieldEntry range_keys IsPrimitivePointer def actual versioned defPkg tabs
    jsonTags name = Ok entry ->
  exists field typedef,
    lookup name actual = Some field
    /\ GoTypeDef range_keys IsPrimitivePointer (DSAttribute field)
         versioned defPkg (tabs + 1) jsonTags = Ok typedef
    /\ entry = WriteTabs EmptyString (tabs + 1) ++ fieldDesc (Description field)
               ++ Goify name true ++ " "
               ++ (if IsObject (Type_ field) || IsPrimitivePointer def name
                   then "*" ++ typedef else typedef)
               ++ fieldTags def name jsonTags ++ LF.
Proof.
  unfold fieldEntry. rewrite with_field_lookup.
  destruct (lookup name actual) as [field|]; [|discriminate].
  destruct (GoTypeDef range_keys IsPrimitivePointer (DSAttribute field)
              versioned defPkg (tabs + 1) jsonTags) as [typedef|msg] eqn:E;
    simpl; [|discriminate].
  intros H. injection H as <-.
  exists field, typedef. auto.
Qed.

(** An entry is written as soon as the key is bound and the type of its
    field renders. *)
Lemma fieldEntry_total
    (range_keys : ObjectFields -> list string)
    (IsPrimitivePointer : AttributeDefinition -> string -> bool)
    (def : AttributeDefinition) (actual : ObjectFields)
    (versioned : bool) (defPkg : string) (tabs : Z) (jsonTags : bool)
    (name : string) :
  In name (map fst actual) ->
  (forall n field, In (n, field) actual ->
     exists d, GoTypeDef range_keys IsPrimitivePointer (DSAttribute field)
                 versioned defPkg (tabs + 1) jsonTags = Ok d) ->
  exists entry,
    fieldEntry range_keys IsPrimitivePointer def actual versioned defPkg tabs
      jsonTags name = Ok entry.
Proof.
  intros Hin Hfields.
  unfold fieldEntry. rewrite with_field_lookup.
  destruct (In_lookup _ _ Hin) as [field Hf]. rewrite Hf.
  destruct (Hfields name field (lookup_In _ _ _ Hf)) as [d Hd].
  rewrite Hd. simpl. eauto.
Qed.

(** The definition of an object, on any data structure. *)
Lemma GoTypeDef_Object
    (range_keys : ObjectFields -> list string)
    (IsPrimitivePointer : AttributeDefinition -> string -> bool)
    (ds : DataStructure) (actual : ObjectFields)
    (versioned : bool) (defPkg : string) (tabs : Z) (jsonTags : bool) :
  Type_ (Definition_ ds) = Object actual ->
  GoTypeDef range_keys IsPrimitivePointer ds versioned defPkg tabs jsonTags
  = (entries <- mapM (fieldEntry range_keys IsPrimitivePointer (Definition_ ds)
                        actual versioned defPkg tabs jsonTags)
                  (sort_Strings (range_keys actual)) ;;
     Ok (structText entries tabs)).
Proof.
  intros H. unfold GoTypeDef. cbv zeta. rewrite H.
  apply GoTypeDef_switch_Object.
Qed.

Lemma has_In (slice : list string) (val : string) :
  has slice val = true <-> In val slice.
Proof.
  induction slice as [|s slice IH]; simpl.
  - split; [discriminate|contradiction].
  - destruct (String.eqb s val) eqn:E.
    + apply String.eqb_eq in E. split; auto.
    + apply String.eqb_neq in E. rewrite IH. split; auto.
      intros [H|H]; [contradiction|exact H].
Qed.

(** ** Field order *)

Lemma lookup_NoDup_In {A : Type} (name : string) (m : list (string * A)) (a : A) :
  NoDup (map fst m) -> In (name, a) m -> lookup name m = Some a.
Proof.
  induction m as [|[n b] m IH]; simpl; [contradiction|].
  intros Hnd Hin. inversion Hnd as [|? ? Hn Hnd']; subst.
  destruct Hin as [Hin|Hin].
  - injection Hin as -> ->. now rewrite String.eqb_refl.
  - destruct (String.eqb n name) eqn:E; [|now apply IH].
    apply String.eqb_eq in E. subst n.
    exfalso. apply Hn. now apply (in_map fst) in Hin.
Qed.

(** A map index does not depend on the order the bindings are listed in. *)
Lemma lookup_perm {A : Type} (name : string) (m m' : list (string * A)) :
  NoDup (map fst m) -> Permutation m' m -> lookup name m' = lookup name m.
Proof.
  intros Hnd HP.
  assert (Hnd' : NoDup (map fst m')).
  { apply (Permutation_NoDup (l := map fst m)); [|exact Hnd].
    apply Permutation_map. now symmetry. }
  destruct (lookup name m) as [a|] eqn:E.
  - apply lookup_In in E.
    apply lookup_NoDup_In; [exact Hnd'|].
    now apply (Permutation_in _ (Permutation_sym HP)).
  - destruct (lookup name m') as [a'|] eqn:E'; [|reflexivity].
    apply lookup_In in E'.
    apply (Permutation_in _ HP) in E'.
    apply (lookup_NoDup_In _ _ _ Hnd) in E'. congruence.
Qed.

(** The definition of an object does not depend on the order its
    bindings are listed in. *)
Lemma GoTypeDef_switch_insertion_order
    (range_keys : ObjectFields -> list string)
    (IsPrimitivePointer : AttributeDefinition -> string -> bool)
    (actual actual' : ObjectFields) (def : AttributeDefinition)
    (versioned : bool) (defPkg : string) (tabs : Z) (jsonTags : bool) :
  (forall m, Permutation (range_keys m) (map fst m)) ->
  NoDup (map fst actual) -> Permutation actual' actual ->
  GoTypeDef_switch range_keys IsPrimitivePointer (Object actual') def
    versioned defPkg tabs jsonTags
  = GoTypeDef_switch range_keys IsPrimitivePointer (Object actual) def
      versioned defPkg tabs jsonTags.
Proof.
  intros Hrange Hnd HP.
  rewrite !GoTypeDef_switch_Object.
  rewrite (sort_Strings_order_irrelevant (range_keys actual') (range_keys actual)).
  2:{ rewrite !Hrange. now apply Permutation_map. }
  f_equal. apply mapM_ext. intros name.
  unfold fieldEntry. rewrite !with_field_lookup.
  now rewrite (lookup_perm name actual actual' Hnd HP).
Qed.

(** C3. When the type of every field renders, [GoTypeDef] returns the
    definition of an object: the struct text over one entry per field,
    the fields taken in increasing byte-wise order of their original
    names.  Whatever the order in which [range] visits the keys, the
    entries follow the sorted arrangement of the field names, which is
    the only sorted one and so depends on the names alone.  The entry of
    a name is the indentation, the comment of the field bound to the
    name, the sanitized name, the definition of the type of that field
    (after a star for an object or a pointer to a primitive), the tags
    and a line feed.  Listing the same bindings of the map in another
    order gives the same definition. *)
Theorem C3_GoTypeDef_fields_sorted
    (range_keys : ObjectFields -> list string)
    (IsPrimitivePointer : AttributeDefinition -> string -> bool)
    (ds : DataStructure) (actual : ObjectFields)
    (versioned : bool) (defPkg : string) (tabs : Z) (jsonTags : bool) :
  (forall m, Permutation (range_keys m) (map fst m)) ->
  Type_ (Definition_ ds) = Object actual ->
  (forall n field, In (n, field) actual ->
     exists d, GoTypeDef range_keys IsPrimitivePointer (DSAttribute field)
                 versioned defPkg (tabs + 1) jsonTags = Ok d) ->
  exists keys entries,
    Permutation keys (map fst actual)
    /\ StronglySorted string_le keys
    /\ (forall keys', Permutation keys' (map fst actual) ->
                      StronglySorted string_le keys' -> keys' = keys)
    /\ GoTypeDef range_keys IsPrimitivePointer ds versioned defPkg tabs jsonTags
       = Ok ("struct {" ++ LF ++ concat_strings entries
             ++ WriteTabs EmptyString tabs ++ "}")
    /\ Forall2
         (fun name entry =>
            exists field typedef,
              lookup name actual = Some field
              /\ GoTypeDef range_keys IsPrimitivePointer (DSAttribute field)
                   versioned defPkg (tabs + 1) jsonTags = Ok typedef
              /\ entry = WriteTabs EmptyString (tabs + 1)
                         ++ fieldDesc (Description field)
                         ++ Goify name true ++ " "
                         ++ (if IsObject (Type_ field)
                                || IsPrimitivePointer (Definition_ ds) name
                             then "*" ++ typedef else typedef)
                         ++ fieldTags (Definition_ ds) name jsonTags ++ LF)
         keys entries
    /\ (forall actual',
          NoDup (map fst actual) -> Permutation actual' actual ->
          GoTypeDef_switch range_keys IsPrimitivePointer (Object actual')
            (Definition_ ds) versioned defPkg tabs jsonTags
          = GoTypeDef range_keys IsPrimitivePointer ds versioned defPkg tabs jsonTags).
Proof.
  intros Hrange Hobj Hfields.
  assert (HP : Permutation (sort_Strings (range_keys actual)) (map fst actual)).
  { rewrite sort_Strings_perm. apply Hrange. }
  destruct (mapM_total
              (fieldEntry range_keys IsPrimitivePointer (Definition_ ds) actual
                 versioned defPkg tabs jsonTags)
              (sort_Strings (range_keys actual))) as [entries He].
  { intros name Hin. apply fieldEntry_total; [|exact Hfields].
    now apply (Permutation_in _ HP). }
  exists (sort_Strings (range_keys actual)), entries.
  split; [exact HP|].
  split; [apply sort_Strings_sorted|].
  split.
  { intros keys' HP' HS'.
    apply sorted_perm_unique; [exact HS'|apply sort_Strings_sorted|].
    rewrite HP'. symmetry. exact HP. }
  split; [rewrite (GoTypeDef_Object _ _ _ _ _ _ _ _ Hobj), He; reflexivity|].
  split.
  { apply mapM_Forall2 in He.
    eapply Forall2_impl_In; [|exact He].
    intros name entry _ Hentry.
    now apply fieldEntry_Ok in Hentry. }
  intros actual' Hnd HP'.
  rewrite (GoTypeDef_switch_insertion_order _ _ actual actual'); auto.
  unfold GoTypeDef. cbv zeta. now rewrite Hobj.
Qed.

(** C3 on the fields entered as b, a, c and visited in the opposite
    order c, a, b: the definition lists a, b, c. *)
Lemma C3_GoTypeDef_witness_bac :
  GoTypeDef range_reversed IsPrimitivePointer_optional
    (DSAttribute example_bac) false EmptyString 0 false
  = Ok ("struct {" ++ LF
        ++ TAB ++ "A *string" ++ LF
        ++ TAB ++ "B *int" ++ LF
        ++ TAB ++ "C *bool" ++ LF
        ++ "}").
Proof.
  destruct (C3_GoTypeDef_fields_sorted range_reversed IsPrimitivePointer_optional
              (DSAttribute example_bac) (ToObject (Type_ example_bac))
              false EmptyString 0 false)
    as (keys & entries & _ & _ & Hunique & Hdef & Hentries & _).
  - intros m. unfold range_reversed. symmetry. apply Permutation_rev.
  - reflexivity.
  - intros n field [H|[H|[H|[]]]]; injection H as <- <-; eexists; reflexivity.
  - assert (Hkeys : ["a"; "b"; "c"] = keys).
    { apply Hunique; [apply perm_swap|].
      repeat (constructor; try reflexivity). }
    destruct Hkeys.
    inversion Hentries as [|? a ? la (fa & ta & Hfa & Hta & Ha) Hb]; subst.
    inversion Hb as [|? b ? lb (fb & tb & Hfb & Htb & Hb') Hc]; subst.
    inversion Hc as [|? c ? lc (fc & tc & Hfc & Htc & Hc') Hnil]; subst.
    inversion Hnil; subst.
    vm_compute in Hfa, Hfb, Hfc.
    injection Hfa as <-. injection Hfb as <-. injection Hfc as <-.
    vm_compute in Hta, Htb, Htc.
    injection Hta as <-. injection Htb as <-. injection Htc as <-.
    rewrite Hdef. reflexivity.
Defined.

(** The fields b, a, c are listed as a, b, c, in whatever order [range]
    visits them. *)
Lemma GoTypeDef_bac_listed_abc
    (range_keys : ObjectFields -> list string) :
  (forall m, Permutation (range_keys m) (map fst m)) ->
  GoTypeDef range_keys IsPrimitivePointer_optional
    (DSAttribute example_bac) false EmptyString 0 false
  = Ok ("struct {" ++ LF
        ++ TAB ++ "A *string" ++ LF
        ++ TAB ++ "B *int" ++ LF
        ++ TAB ++ "C *bool" ++ LF
        ++ "}").
Proof.
  intros Hrange.
  rewrite (GoTypeDef_Object _ _ _ (ToObject (Type_ example_bac))); [|reflexivity].
  rewrite (sort_Strings_order_irrelevant _ _ (Hrange _)).
  reflexivity.
Qed.

(** The entries of an object definition that was returned. *)
Lemma GoTypeDef_Object_entries
    (range_keys : ObjectFields -> list string)
    (IsPrimitivePointer : AttributeDefinition -> string -> bool)
    (ds : DataStructure) (actual : ObjectFields)
    (versioned : bool) (defPkg : string) (tabs : Z) (jsonTags : bool)
    (s : string) :
  Type_ (Definition_ ds) = Object actual ->
  GoTypeDef range_keys IsPrimitivePointer ds versioned defPkg tabs jsonTags = Ok s ->
  exists entries,
    s = structText entries tabs
    /\ Forall2
         (fun name entry =>
            fieldEntry range_keys IsPrimitivePointer (Definition_ ds) actual
              versioned defPkg tabs jsonTags name = Ok entry)
         (sort_Strings (range_keys actual)) entries.
Proof.
  intros Hobj. rewrite (GoTypeDef_Object _ _ _ _ _ _ _ _ Hobj).
  destruct (mapM _ _) as [entries|msg] eqn:E; simpl; [|discriminate].
  intros H. injection H as <-.
  exists entries. split; [reflexivity|].
  now apply mapM_Forall2.
Qed.

Lemma fieldTags_tagText (def : AttributeDefinition) (name : string) :
  fieldTags def name true
  = tagText name (if IsRequired def name then EmptyString else ",omitempty").
Proof.
  unfold fieldTags, tagText.
  destruct (IsRequired def name); reflexivity.
Qed.

(** ** Serialization tags *)

(** C4. With tags enabled, the definition of an object is the struct
    text over one entry per field name, and the entry of each field ends
    with the tag over the original field name: the plain tag when the
    name is among the required fields of the attribute, the tag with
    [,omitempty] when it is not. *)
Theorem C4_GoTypeDef_tags
    (range_keys : ObjectFields -> list string)
    (IsPrimitivePointer : AttributeDefinition -> string -> bool)
    (ds : DataStructure) (actual : ObjectFields)
    (versioned : bool) (defPkg : string) (tabs : Z) (s : string) :
  (forall m, Permutation (range_keys m) (map fst m)) ->
  Type_ (Definition_ ds) = Object actual ->
  GoTypeDef range_keys IsPrimitivePointer ds versioned defPkg tabs true = Ok s ->
  exists keys entries,
    Permutation keys (map fst actual)
    /\ s = structText entries tabs
    /\ Forall2
         (fun name entry =>
            exists declaration,
              (In name (AllRequired (Definition_ ds)) ->
               entry = declaration ++ tagText name EmptyString ++ LF)
              /\ (~ In name (AllRequired (Definition_ ds)) ->
                  entry = declaration ++ tagText name ",omitempty" ++ LF))
         keys entries.
Proof.
  intros Hrange Hobj Hs.
  destruct (GoTypeDef_Object_entries _ _ _ _ _ _ _ _ _ Hobj Hs) as (entries & -> & HF).
  exists (sort_Strings (range_keys actual)), entries.
  split; [rewrite sort_Strings_perm; apply Hrange|].
  split; [reflexivity|].
  eapply Forall2_impl_In; [|exact HF].
  intros name entry _ He.
  apply fieldEntry_Ok in He as (field & typedef & _ & _ & ->).
  exists (WriteTabs EmptyString (tabs + 1) ++ fieldDesc (Description field)
          ++ Goify name true ++ " "
          ++ (if IsObject (Type_ field) || IsPrimitivePointer (Definition_ ds) name
              then "*" ++ typedef else typedef)).
  rewrite fieldTags_tagText, !append_assoc.
  split; intros Hreq.
  - apply has_In in Hreq. unfold IsRequired. now rewrite Hreq.
  - unfold IsRequired. destruct (has _ name) eqn:E; [|reflexivity].
    apply has_In in E. contradiction.
Qed.

(** The fields [id] (required) and [name] with tags enabled. *)
Lemma GoTypeDef_id_name_tags :
  GoTypeDef range_listed IsPrimitivePointer_optional
    (DSAttribute example_id_name) false EmptyString 0 true
  = Ok ("struct {" ++ LF
        ++ TAB ++ "ID int" ++ tagText "id" EmptyString ++ LF
        ++ TAB ++ "Name *string" ++ tagText "name" ",omitempty" ++ LF
        ++ "}").
Proof. reflexivity. Qed.

(** C4 on the fields [id] (required) and [name]. *)
Lemma C4_GoTypeDef_witness_id_name :
  exists keys entries,
    Permutation keys ["id"; "name"]
    /\ "struct {" ++ LF
        ++ TAB ++ "ID int" ++ tagText "id" EmptyString ++ LF
        ++ TAB ++ "Name *string" ++ tagText "name" ",omitempty" ++ LF
        ++ "}" = structText entries 0
    /\ Forall2
         (fun name entry =>
            exists declaration,
              (In name ["id"] ->
               entry = declaration ++ tagText name EmptyString ++ LF)
              /\ (~ In name ["id"] ->
                  entry = declaration ++ tagText name ",omitempty" ++ LF))
         keys entries.
Proof.
  apply (C4_GoTypeDef_tags range_listed IsPrimitivePointer_optional
           (DSAttribute example_id_name) (ToObject (Type_ example_id_name))
           false EmptyString 0).
  - intros m. apply Permutation_refl.
  - reflexivity.
  - reflexivity.
Defined.

(** ** Identifier collisions *)

(** C2, as the code has it.  [GoTypeDef] does not compare the sanitized
    identifiers of the fields of an object.  When two distinct field
    names have the same sanitized identifier and the type of every field
    renders, the definition is returned (no panic), with one entry per
    field name, each declaring its field under [Goify name true]: the two
    fields are declared under the same identifier, neither renamed. *)
Theorem C2_GoTypeDef_collision_unchecked
    (range_keys : ObjectFields -> list string)
    (IsPrimitivePointer : AttributeDefinition -> string -> bool)
    (ds : DataStructure) (actual : ObjectFields)
    (versioned : bool) (defPkg : string) (tabs : Z) (jsonTags : bool)
    (name1 name2 : string) :
  (forall m, Permutation (range_keys m) (map fst m)) ->
  Type_ (Definition_ ds) = Object actual ->
  In name1 (map fst actual) -> In name2 (map fst actual) ->
  name1 <> name2 -> Goify name1 true = Goify name2 true ->
  (forall n field, In (n, field) actual ->
     exists d, GoTypeDef range_keys IsPrimitivePointer (DSAttribute field)
                 versioned defPkg (tabs + 1) jsonTags = Ok d) ->
  exists keys entries,
    GoTypeDef range_keys IsPrimitivePointer ds versioned defPkg tabs jsonTags
    = Ok (structText entries tabs)
    /\ In name1 keys /\ In name2 keys
    /\ Forall2
         (fun name entry =>
            exists field rest,
              lookup name actual = Some field
              /\ entry = WriteTabs EmptyString (tabs + 1)
                         ++ fieldDesc (Description field)
                         ++ Goify name true ++ " " ++ rest)
         keys entries.
Proof.
  intros Hrange Hobj H1 H2 _ _ Hfields.
  assert (HP : Permutation (sort_Strings (range_keys actual)) (map fst actual)).
  { rewrite sort_Strings_perm. apply Hrange. }
  destruct (mapM_total
              (fieldEntry range_keys IsPrimitivePointer (Definition_ ds) actual
                 versioned defPkg tabs jsonTags)
              (sort_Strings (range_keys actual))) as [entries He].
  { intros name Hin. apply fieldEntry_total; [|exact Hfields].
    now apply (Permutation_in _ HP). }
  exists (sort_Strings (range_keys actual)), entries.
  split; [rewrite (GoTypeDef_Object _ _ _ _ _ _ _ _ Hobj), He; reflexivity|].
  split; [now apply (Permutation_in _ (Permutation_sym HP))|].
  split; [now apply (Permutation_in _ (Permutation_sym HP))|].
  apply mapM_Forall2 in He.
  eapply Forall2_impl_In; [|exact He].
  intros name entry _ Hentry.
  apply fieldEntry_Ok in Hentry as (field & typedef & Hl & _ & ->).
  exists field. eexists. split; [exact Hl|reflexivity].
Qed.

(** The claim C2 as stated fails on the fields [a_b] and [aB]: both
    sanitize to [AB], and the definition is returned with two fields
    named [AB] instead of a failure. *)
Lemma C2_counterexample_collision :
  "a_b" <> "aB"
  /\ Goify "a_b" true = "AB" /\ Goify "aB" true = "AB"
  /\ GoTypeDef range_listed IsPrimitivePointer_optional
       (DSAttribute example_collision) false EmptyString 0 false
     = Ok ("struct {" ++ LF
           ++ TAB ++ "AB *string" ++ LF
           ++ TAB ++ "AB *int" ++ LF
           ++ "}").
Proof.
  split; [discriminate|]. repeat split.
Qed.

(** ** Induction on the type tree *)

(** Structural induction on [DataType], with the hypotheses on the
    attributes a node holds stated on their types. *)
Lemma DataType_induction (P : DataType -> Prop) :
  (forall k, P (Primitive k)) ->
  (forall ElemType, P (Type_ ElemType) -> P (Array ElemType)) ->
  (forall actual : ObjectFields,
     (forall n field, In (n, field) actual -> P (Type_ field)) ->
     P (Object actual)) ->
  (forall KeyType ElemType,
     P (Type_ KeyType) -> P (Type_ ElemType) -> P (Hash KeyType ElemType)) ->
  (forall ut, P (Type_ (AttributeDefinition_ ut)) -> P (UserTypeDefinition ut)) ->
  (forall mt, P (Type_ (AttributeDefinition_ mt)) -> P (MediaTypeDefinition mt)) ->
  forall t, P t.
Proof.
  intros HPrim HArr HObj HHash HUser HMedia.
  induction t as [k|e He|fields Hf|k Hk e He|ut Hut|mt Hmt].
  - apply HPrim.
  - apply HArr. now destruct He.
  - apply HObj.
    induction Hf as [|x Hx fields Hf IH]; intros n' field' Hin.
    + contradiction.
    + destruct Hin as [Hin|Hin].
      * destruct Hx as [n _ a Ha]. injection Hin as <- <-. now destruct Ha.
      * now apply (IH n' field').
  - apply HHash; [now destruct Hk|now destruct He].
  - apply HUser. destruct Hut as [? Hut ? ?]. now destruct Hut.
  - apply HMedia. destruct Hmt as [? Hmt ? ?]. now destruct Hmt.
Qed.

(** ** Determinism: the order of range is not observable *)

Section RangeOrder.

Variables range1 range2 : ObjectFields -> list string.
Variable IsPrimitivePointer : AttributeDefinition -> string -> bool.

Hypothesis range1_keys : forall m, Permutation (range1 m) (map fst m).
Hypothesis range2_keys : forall m, Permutation (range2 m) (map fst m).

Lemma GoTypeDef_switch_range_irrelevant (t : DataType) :
  forall def versioned defPkg tabs jsonTags,
    GoTypeDef_switch range1 IsPrimitivePointer t def versioned defPkg tabs jsonTags
    = GoTypeDef_switch range2 IsPrimitivePointer t def versioned defPkg tabs jsonTags.
Proof.
  induction t as [k|e IHe|actual IH|k e IHk IHe|ut _|mt _] using DataType_induction;
    intros def versioned defPkg tabs jsonTags.
  - reflexivity.
  - cbn [GoTypeDef_switch]. now rewrite IHe.
  - rewrite !GoTypeDef_switch_Object.
    rewrite (sort_Strings_order_irrelevant (range1 actual) (range2 actual)).
    2:{ rewrite range1_keys. symmetry. apply range2_keys. }
    f_equal. apply mapM_ext. intros name.
    unfold fieldEntry. apply with_field_ext. intros n field Hin.
    unfold GoTypeDef. cbv zeta. simpl Definition_.
    now rewrite (IH n field Hin).
  - cbn [GoTypeDef_switch]. rewrite IHk. apply bind_ext. intros keyDef.
    now rewrite IHe.
  - reflexivity.
  - reflexivity.
Qed.

Lemma GoTypeDef_range_irrelevant (ds : DataStructure)
    (versioned : bool) (defPkg : string) (tabs : Z) (jsonTags : bool) :
  GoTypeDef range1 IsPrimitivePointer ds versioned defPkg tabs jsonTags
  = GoTypeDef range2 IsPrimitivePointer ds versioned defPkg tabs jsonTags.
Proof. apply GoTypeDef_switch_range_irrelevant. Qed.

Lemma GoPackageTypeName_range_irrelevant (t : DataType) :
  forall required versioned defPkg tabs,
    GoPackageTypeName range1 IsPrimitivePointer t required versioned defPkg tabs
    = GoPackageTypeName range2 IsPrimitivePointer t required versioned defPkg tabs.
Proof.
  induction t as [k|e IHe|actual _|k e IHk IHe|ut _|mt _] using DataType_induction;
    intros required versioned defPkg tabs.
  - reflexivity.
  - rewrite !GoPackageTypeName_Array_eq, !GoPackageTypeRef_star.
    now rewrite IHe.
  - rewrite !GoPackageTypeName_Object_eq. apply GoTypeDef_range_irrelevant.
  - rewrite !GoPackageTypeName_Hash_eq, !GoPackageTypeRef_star.
    now rewrite IHk, IHe.
  - reflexivity.
  - reflexivity.
Qed.

Lemma GoPackageTypeRef_range_irrelevant (t : DataType)
    (required : list string) (versioned : bool) (defPkg : string) (tabs : Z) :
  GoPackageTypeRef range1 IsPrimitivePointer t required versioned defPkg tabs
  = GoPackageTypeRef range2 IsPrimitivePointer t required versioned defPkg tabs.
Proof.
  rewrite !GoPackageTypeRef_star.
  now rewrite GoPackageTypeName_range_irrelevant.
Qed.

End RangeOrder.

(** C9. Rendering is deterministic.  The only unspecified behaviour the
    renderers touch is the order in which [range] visits the keys of an
    object; for any two such orders, and the same node and parameters,
    [GoTypeDef], [GoPackageTypeName], [GoPackageTypeRef], [GoTypeName]
    and [GoTypeRef] return the same result, byte for byte.  [Goify] reads
    no map by iteration and no state: equal arguments give equal
    identifiers. *)
Theorem C9_rendering_deterministic
    (range1 range2 : ObjectFields -> list string)
    (IsPrimitivePointer : AttributeDefinition -> string -> bool)
    (ds : DataStructure) (t : DataType) (required : list string)
    (versioned : bool) (defPkg : string) (tabs : Z) (jsonTags : bool) :
  (forall m, Permutation (range1 m) (map fst m)) ->
  (forall m, Permutation (range2 m) (map fst m)) ->
  GoTypeDef range1 IsPrimitivePointer ds versioned defPkg tabs jsonTags
  = GoTypeDef range2 IsPrimitivePointer ds versioned defPkg tabs jsonTags
  /\ GoPackageTypeName range1 IsPrimitivePointer t required versioned defPkg tabs
     = GoPackageTypeName range2 IsPrimitivePointer t required versioned defPkg tabs
  /\ GoPackageTypeRef range1 IsPrimitivePointer t required versioned defPkg tabs
     = GoPackageTypeRef range2 IsPrimitivePointer t required versioned defPkg tabs
  /\ GoTypeName range1 IsPrimitivePointer t required tabs
     = GoTypeName range2 IsPrimitivePointer t required tabs
  /\ GoTypeRef range1 IsPrimitivePointer t required tabs
     = GoTypeRef range2 IsPrimitivePointer t required tabs
  /\ (forall str1 str2 firstUpper1 firstUpper2,
        str1 = str2 -> firstUpper1 = firstUpper2 ->
        Goify str1 firstUpper1 = Goify str2 firstUpper2).
Proof.
  intros H1 H2.
  split; [now apply GoTypeDef_range_irrelevant|].
  split; [now apply GoPackageTypeName_range_irrelevant|].
  split; [now apply GoPackageTypeRef_range_irrelevant|].
  split; [now apply GoPackageTypeName_range_irrelevant|].
  split; [now apply GoPackageTypeRef_range_irrelevant|].
  intros str1 str2 f1 f2 -> ->. reflexivity.
Qed.

Lemma range_listed_keys (m : ObjectFields) : Permutation (range_listed m) (map fst m).
Proof. apply Permutation_refl. Defined.

Lemma range_reversed_keys (m : ObjectFields) : Permutation (range_reversed m) (map fst m).
Proof. unfold range_reversed. symmetry. apply Permutation_rev. Defined.

(** C9 on the fields b, a, c visited in the order entered and in the
    opposite order. *)
Lemma C9_rendering_witness :
  GoTypeDef range_listed IsPrimitivePointer_optional
    (DSAttribute example_bac) false EmptyString 0 true
  = GoTypeDef range_reversed IsPrimitivePointer_optional
      (DSAttribute example_bac) false EmptyString 0 true.
Proof.
  exact (proj1 (C9_rendering_deterministic range_listed range_reversed
                  IsPrimitivePointer_optional (DSAttribute example_bac)
                  (Type_ example_bac) [] false EmptyString 0 true
                  range_listed_keys range_reversed_keys)).
Defined.

(** C2 on the fields [a_b] and [aB]. *)
Lemma C2_GoTypeDef_witness_collision :
  exists keys entries,
    GoTypeDef range_listed IsPrimitivePointer_optional
      (DSAttribute example_collision) false EmptyString 0 false
    = Ok (structText entries 0)
    /\ In "a_b" keys /\ In "aB" keys
    /\ Forall2
         (fun name entry =>
            exists field rest,
              lookup name (ToObject (Type_ example_collision)) = Some field
              /\ entry = WriteTabs EmptyString (0 + 1)
                         ++ fieldDesc (Description field)
                         ++ Goify name true ++ " " ++ rest)
         keys entries.
Proof.
  apply (C2_GoTypeDef_collision_unchecked range_listed
           IsPrimitivePointer_optional (DSAttribute example_collision)
           (ToObject (Type_ example_collision)) false EmptyString 0 false
           "a_b" "aB").
  - exact range_listed_keys.
  - reflexivity.
  - simpl. auto.
  - simpl. auto.
  - discriminate.
  - reflexivity.
  - intros n field [H|[H|[]]]; injection H as <- <-; eexists; reflexivity.
Defined.

(** ** Indentation *)

(** C6 at its failing input: an object at indentation 1 whose field [a]
    carries the description [the a].  The comment line is indented, the
    declaration of the field that follows it starts at the first column,
    so not every line after the first is indented.  The same field
    without description is indented. *)
Theorem C6_description_breaks_indentation :
  GoTypeDef range_listed IsPrimitivePointer_optional
    (DSAttribute example_described_field) false EmptyString 1 false
  = Ok ("struct {" ++ LF
        ++ TAB ++ TAB ++ "// the a" ++ LF
        ++ "A *int" ++ LF
        ++ TAB ++ "}")
  /\ rmap lines
       (GoTypeDef range_listed IsPrimitivePointer_optional
          (DSAttribute example_described_field) false EmptyString 1 false)
     = Ok ["struct {"; TAB ++ TAB ++ "// the a"; "A *int"; TAB ++ "}"]
  /\ rmap (indented_after_first_line 1)
       (GoTypeDef range_listed IsPrimitivePointer_optional
          (DSAttribute example_described_field) false EmptyString 1 false)
     = Ok false
  /\ rmap (indented_after_first_line 1)
       (GoTypeDef range_listed IsPrimitivePointer_optional
          (DSAttribute example_plain_field) false EmptyString 1 false)
     = Ok true.
Proof. repeat split. Qed.

(** ** Where backquotes come from

    A backquote delimits a struct tag.  The renderers write none of
    their own when tags are disabled: one can only come from a
    description or from the name of the default package. *)

Lemma namedTypeName_no_backquote (ut : UserType) (versioned : bool) (defPkg : string) :
  has_backquote defPkg = false ->
  has_backquote (namedTypeName ut versioned defPkg) = false.
Proof.
  intros Hp. unfold namedTypeName, PackagePrefix. cbv zeta.
  rewrite has_backquote_append, Goify_no_backquote, orb_false_r.
  destruct (negb versioned); [reflexivity|].
  destruct (Nat.eqb _ 0); [|reflexivity].
  now rewrite has_backquote_append, Hp.
Qed.

Lemma GoNativeType_Primitive_no_backquote (k : Kind) (s : string) :
  GoNativeType_Primitive k = Ok s -> has_backquote s = false.
Proof.
  destruct k; simpl; intros H; try discriminate H; injection H as <-; reflexivity.
Qed.

Lemma has_backquote_star (b : bool) (d : string) :
  has_backquote (if b then "*" ++ d else d) = has_backquote d.
Proof. now destruct b. Qed.

Lemma has_backquote_concat_strings (entries : list string) :
  Forall (fun e => has_backquote e = false) entries ->
  has_backquote (concat_strings entries) = false.
Proof.
  induction 1 as [|e entries He _ IH]; simpl; [reflexivity|].
  now rewrite has_backquote_append, He, IH.
Qed.

Lemma Forall2_Forall_r {A B : Type} (P : A -> B -> Prop) (Q : B -> Prop)
    (l : list A) (l' : list B) :
  (forall a b, P a b -> Q b) -> Forall2 P l l' -> Forall Q l'.
Proof.
  intros H HF. induction HF; constructor; eauto.
Qed.

Lemma fieldDesc_no_backquote (description : string) :
  has_backquote description = false ->
  has_backquote (fieldDesc description) = false.
Proof.
  intros H. unfold fieldDesc.
  destruct (negb _); [|exact H].
  now rewrite !has_backquote_append, H.
Qed.

(** With tags disabled, a definition holds no backquote unless a
    description or the default package name brings one. *)
Lemma GoTypeDef_switch_no_backquote
    (range_keys : ObjectFields -> list string)
    (IsPrimitivePointer : AttributeDefinition -> string -> bool)
    (versioned : bool) (defPkg : string) (t : DataType) :
  has_backquote defPkg = false ->
  descriptions_plain t = true ->
  forall def tabs s,
    GoTypeDef_switch range_keys IsPrimitivePointer t def versioned defPkg tabs false
    = Ok s ->
    has_backquote s = false.
Proof.
  intros Hp.
  induction t as [k|e IHe|actual IH|k e IHk IHe|ut _|mt _] using DataType_induction;
    intros Hplain def tabs s.
  - apply GoNativeType_Primitive_no_backquote.
  - cbn [GoTypeDef_switch]. cbn [descriptions_plain] in Hplain.
    destruct (GoTypeDef_switch _ _ (Type_ e) e _ _ _ _) as [d|msg] eqn:E;
      cbn [bind]; [|discriminate].
    intros H. injection H as <-.
    change (has_backquote
              ("[]" ++ (if IsObject (Type_ e) then "*" ++ d else d)) = false).
    rewrite has_backquote_append, has_backquote_star.
    now rewrite (IHe Hplain e tabs d E).
  - rewrite GoTypeDef_switch_Object.
    destruct (mapM _ _) as [entries|msg] eqn:E; cbn [bind]; [|discriminate].
    intros H. injection H as <-.
    unfold structText.
    rewrite !has_backquote_append, has_backquote_WriteTabs. simpl.
    rewrite orb_false_r.
    apply has_backquote_concat_strings.
    apply mapM_Forall2 in E.
    eapply Forall2_Forall_r; [|exact E].
    intros name entry He. cbv beta in He.
    apply fieldEntry_Ok in He as (field & typedef & Hl & Ht & ->).
    apply lookup_In in Hl.
    cbn [descriptions_plain] in Hplain. rewrite forallb_forall in Hplain.
    specialize (Hplain _ Hl). simpl in Hplain.
    apply andb_prop in Hplain as [Hd Hf]. apply negb_true_iff in Hd.
    rewrite !has_backquote_append, has_backquote_WriteTabs,
      (fieldDesc_no_backquote _ Hd), Goify_no_backquote, has_backquote_star.
    unfold GoTypeDef in Ht. cbv zeta in Ht. simpl Definition_ in Ht.
    rewrite (IH name field Hl Hf field (tabs + 1)%Z typedef Ht).
    reflexivity.
  - cbn [GoTypeDef_switch]. cbn [descriptions_plain] in Hplain.
    apply andb_prop in Hplain as [Hk He].
    destruct (GoTypeDef_switch _ _ (Type_ k) k _ _ _ _) as [kd|msg] eqn:Ek;
      cbn [bind]; [|discriminate].
    destruct (GoTypeDef_switch _ _ (Type_ e) e _ _ _ _) as [ed|msg] eqn:Ee;
      cbn [bind]; [|discriminate].
    intros H. injection H as <-.
    change (has_backquote
              ("map[" ++ (if IsObject (Type_ k) then "*" ++ kd else kd)
                 ++ "]" ++ (if IsObject (Type_ e) then "*" ++ ed else ed))
            = false).
    rewrite !has_backquote_append, !has_backquote_star.
    rewrite (IHk Hk k tabs kd Ek), (IHe He e tabs ed Ee). reflexivity.
  - cbn [GoTypeDef_switch]. intros H. injection H as <-.
    now apply namedTypeName_no_backquote.
  - cbn [GoTypeDef_switch]. intros H. injection H as <-.
    now apply namedTypeName_no_backquote.
Qed.

Lemma GoTypeDef_no_backquote
    (range_keys : ObjectFields -> list string)
    (IsPrimitivePointer : AttributeDefinition -> string -> bool)
    (ds : DataStructure) (versioned : bool) (defPkg : string) (tabs : Z)
    (s : string) :
  has_backquote defPkg = false ->
  descriptions_plain (Type_ (Definition_ ds)) = true ->
  GoTypeDef range_keys IsPrimitivePointer ds versioned defPkg tabs false = Ok s ->
  has_backquote s = false.
Proof.
  intros Hp Hplain. unfold GoTypeDef. cbv zeta.
  now apply GoTypeDef_switch_no_backquote.
Qed.

Lemma has_backquote_fieldTags (def : AttributeDefinition) (name : string) :
  has_backquote (fieldTags def name true) = true.
Proof. reflexivity. Qed.

(** With tags enabled, the definition of an object that has a field
    holds a backquote. *)
Lemma GoTypeDef_tagged_has_backquote
    (range_keys : ObjectFields -> list string)
    (IsPrimitivePointer : AttributeDefinition -> string -> bool)
    (ds : DataStructure) (actual : ObjectFields)
    (versioned : bool) (defPkg : string) (tabs : Z) (s : string) :
  (forall m, Permutation (range_keys m) (map fst m)) ->
  Type_ (Definition_ ds) = Object actual ->
  actual <> [] ->
  GoTypeDef range_keys IsPrimitivePointer ds versioned defPkg tabs true = Ok s ->
  has_backquote s = true.
Proof.
  intros Hrange Hobj Hne Hs.
  destruct (GoTypeDef_Object_entries _ _ _ _ _ _ _ _ _ Hobj Hs) as (entries & -> & HF).
  assert (HP : Permutation (sort_Strings (range_keys actual)) (map fst actual)).
  { rewrite sort_Strings_perm. apply Hrange. }
  destruct HF as [|name entry keys entries He HF].
  - apply Permutation_nil in HP.
    destruct actual; [contradiction|discriminate].
  - apply fieldEntry_Ok in He as (field & typedef & _ & _ & ->).
    unfold structText. cbn [concat_strings].
    rewrite !has_backquote_append, has_backquote_fieldTags.
    now rewrite !orb_true_r.
Qed.

Lemma AllRequired_inlineAttribute (t : DataType) (required : list string) :
  AllRequired (inlineAttribute t required) = required.
Proof.
  unfold inlineAttribute. cbv zeta.
  destruct required as [|r required]; [reflexivity|].
  unfold AllRequired. simpl. now rewrite app_nil_r.
Qed.

(** ** Inline objects carry no tags *)

(** C10. On a bare object, [GoPackageTypeName] returns the definition
    [GoTypeDef] gives, with tags disabled, for the object under the
    supplied required fields, [GoPackageTypeRef] returns the same behind
    a star, and [GoTypeName] and [GoTypeRef] do so in the default
    package.  These results hold no backquote, the delimiter of a struct
    tag, unless the default package name or a description of the object
    brings one; whereas the definition of the same object with tags
    enabled holds one as soon as the object has a field. *)
Theorem C10_inline_object_untagged
    (range_keys : ObjectFields -> list string)
    (IsPrimitivePointer : AttributeDefinition -> string -> bool)
    (actual : ObjectFields) (required : list string)
    (versioned : bool) (defPkg : string) (tabs : Z) :
  (forall m, Permutation (range_keys m) (map fst m)) ->
  AllRequired (inlineAttribute (Object actual) required) = required
  /\ GoPackageTypeName range_keys IsPrimitivePointer (Object actual)
       required versioned defPkg tabs
     = GoTypeDef range_keys IsPrimitivePointer
         (DSAttribute (inlineAttribute (Object actual) required))
         versioned defPkg tabs false
  /\ GoPackageTypeRef range_keys IsPrimitivePointer (Object actual)
       required versioned defPkg tabs
     = rmap (append "*")
         (GoTypeDef range_keys IsPrimitivePointer
            (DSAttribute (inlineAttribute (Object actual) required))
            versioned defPkg tabs false)
  /\ GoTypeName range_keys IsPrimitivePointer (Object actual) required tabs
     = GoTypeDef range_keys IsPrimitivePointer
         (DSAttribute (inlineAttribute (Object actual) required))
         false EmptyString tabs false
  /\ GoTypeRef range_keys IsPrimitivePointer (Object actual) required tabs
     = rmap (append "*")
         (GoTypeDef range_keys IsPrimitivePointer
            (DSAttribute (inlineAttribute (Object actual) required))
            false EmptyString tabs false)
  /\ (descriptions_plain (Object actual) = true ->
      has_backquote defPkg = false ->
      forall s,
        GoPackageTypeName range_keys IsPrimitivePointer (Object actual)
          required versioned defPkg tabs = Ok s
        \/ GoPackageTypeRef range_keys IsPrimitivePointer (Object actual)
             required versioned defPkg tabs = Ok s ->
        has_backquote s = false)
  /\ (descriptions_plain (Object actual) = true ->
      forall s,
        GoTypeName range_keys IsPrimitivePointer (Object actual) required tabs = Ok s
        \/ GoTypeRef range_keys IsPrimitivePointer (Object actual) required tabs = Ok s ->
        has_backquote s = false)
  /\ (actual <> [] ->
      forall s,
        GoTypeDef range_keys IsPrimitivePointer
          (DSAttribute (inlineAttribute (Object actual) required))
          versioned defPkg tabs true = Ok s ->
        has_backquote s = true).
Proof.
  intros Hrange.
  assert (Hobj : Type_ (Definition_ (DSAttribute (inlineAttribute (Object actual) required)))
                 = Object actual).
  { unfold inlineAttribute. cbv zeta. now destruct (Nat.ltb _ _). }
  assert (Hplain : forall v p s,
    descriptions_plain (Object actual) = true -> has_backquote p = false ->
    GoPackageTypeName range_keys IsPrimitivePointer (Object actual) required v p tabs = Ok s
    \/ GoPackageTypeRef range_keys IsPrimitivePointer (Object actual) required v p tabs = Ok s ->
    has_backquote s = false).
  { intros v p s Hd Hp.
    rewrite GoPackageTypeRef_eq, GoPackageTypeName_Object_eq.
    destruct (GoTypeDef _ _ _ v p tabs false) as [d|msg] eqn:E.
    - assert (Hbq : has_backquote d = false).
      { apply (GoTypeDef_no_backquote _ _ _ _ _ _ _ Hp) in E; [exact E|].
        now rewrite Hobj. }
      intros [H|H]; injection H as <-; [exact Hbq|].
      change (has_backquote ("*" ++ d) = false).
      now rewrite has_backquote_append, Hbq.
    - intros [H|H]; discriminate H. }
  split; [apply AllRequired_inlineAttribute|].
  split; [reflexivity|]. split; [reflexivity|].
  split; [reflexivity|]. split; [reflexivity|].
  split; [intros Hd Hp s; now apply Hplain|].
  split; [intros Hd s; now apply Hplain|].
  intros Hne s. now apply (GoTypeDef_tagged_has_backquote _ _ _ actual).
Qed.

(** C10 on the fields [id] and [name] with [id] required: the type
    reference is the untagged definition behind a star. *)
Lemma C10_inline_object_witness :
  GoTypeRef range_listed IsPrimitivePointer_optional
    (Type_ example_id_name) ["id"] 0
  = rmap (append "*")
      (GoTypeDef range_listed IsPrimitivePointer_optional
         (DSAttribute (inlineAttribute (Type_ example_id_name) ["id"]))
         false EmptyString 0 false).
Proof.
  exact (proj1 (proj2 (proj2 (proj2 (proj2
           (C10_inline_object_untagged range_listed IsPrimitivePointer_optional
              (ToObject (Type_ example_id_name)) ["id"] false EmptyString 0
              range_listed_keys)))))).
Defined.

(** The type reference of the object with fields [id] (required) and
    [name]. *)
Lemma GoTypeRef_id_name :
  GoTypeRef range_listed IsPrimitivePointer_optional
    (Type_ example_id_name) ["id"] 0
  = Ok ("*struct {" ++ LF
        ++ TAB ++ "ID int" ++ LF
        ++ TAB ++ "Name *string" ++ LF
        ++ "}").
Proof. reflexivity. Qed.

(** ** Indentation without descriptions

    The field loop indents what it writes: when no field has a
    description, every line after the first starts with the tabulations
    of its level.  The line that escapes, in C6, is the one that follows
    a description. *)

Lemma one_line_append (a b : string) :
  one_line (a ++ b) = one_line a && one_line b.
Proof.
  unfold one_line. rewrite contains_append. apply negb_orb.
Qed.

Lemma one_line_tabs_text (n : nat) : one_line (tabs_text n) = true.
Proof.
  unfold tabs_text.
  assert (H : forall buf, one_line (WriteTabs_loop buf n) = one_line buf).
  { induction n as [|n IH]; intros buf; simpl; [reflexivity|].
    rewrite IH, one_line_append. apply andb_true_r. }
  now rewrite H.
Qed.

Lemma WriteTabs_loop_S (n : nat) (buf : string) :
  WriteTabs_loop buf (S n) = WriteTabs_loop buf n ++ TAB.
Proof.
  revert buf. induction n as [|n IH]; intros buf; [reflexivity|].
  change (WriteTabs_loop buf (S (S n))) with (WriteTabs_loop (buf ++ TAB) (S n)).
  now rewrite IH.
Qed.

Lemma tabs_text_S (n : nat) : tabs_text (S n) = tabs_text n ++ TAB.
Proof. apply WriteTabs_loop_S. Qed.

Lemma Continued_app (n : nat) (a b : string) :
  Continued n a -> Continued n b -> Continued n (a ++ b).
Proof.
  intros Ha Hb.
  induction Ha as [|l c Hl Hc IH]; [exact Hb|].
  rewrite !append_assoc. now constructor.
Qed.

Lemma Continued_app_line (n : nat) (c l : string) :
  Continued n c -> c <> EmptyString -> one_line l = true -> Continued n (c ++ l).
Proof.
  intros Hc.
  induction Hc as [|l0 c Hl0 Hc IH]; intros Hne Hl; [contradiction|].
  destruct (string_dec c EmptyString) as [->|Hc'].
  - replace ((LF ++ tabs_text n ++ l0 ++ EmptyString) ++ l)
      with (LF ++ tabs_text n ++ (l0 ++ l) ++ EmptyString).
    + constructor; [|constructor].
      rewrite one_line_append. now rewrite Hl0, Hl.
    + rewrite !append_assoc, !append_empty_r. reflexivity.
  - replace ((LF ++ tabs_text n ++ l0 ++ c) ++ l)
      with (LF ++ tabs_text n ++ l0 ++ (c ++ l))
      by now rewrite !append_assoc.
    constructor; auto.
Qed.

Lemma Continued_S (n : nat) (c : string) : Continued (S n) c -> Continued n c.
Proof.
  induction 1 as [|l c Hl Hc IH]; [constructor|].
  replace (LF ++ tabs_text (S n) ++ l ++ c)
    with (LF ++ tabs_text n ++ (TAB ++ l) ++ c)
    by now rewrite tabs_text_S, !append_assoc.
  constructor; [|exact IH].
  rewrite one_line_append. now rewrite Hl.
Qed.

Lemma Indented_S (n : nat) (s : string) : Indented (S n) s -> Indented n s.
Proof.
  intros (first & rest & Hf & Hr & ->).
  exists first, rest. auto using Continued_S.
Qed.

Lemma Indented_one_line (n : nat) (l : string) : one_line l = true -> Indented n l.
Proof.
  intros H. exists l, EmptyString.
  split; [exact H|]. split; [constructor|]. now rewrite append_empty_r.
Qed.

Lemma Indented_app (n : nat) (a b : string) :
  Indented n a -> Indented n b -> Indented n (a ++ b).
Proof.
  intros (a0 & ca & Ha0 & Hca & ->) (b0 & cb & Hb0 & Hcb & ->).
  destruct ca as [|x ca'] eqn:E.
  - exists (a0 ++ b0), cb.
    rewrite one_line_append, Ha0, Hb0, append_empty_r, append_assoc. auto.
  - rewrite <- E in *. exists a0, ((ca ++ b0) ++ cb).
    split; [exact Ha0|]. split.
    + apply Continued_app; [|exact Hcb].
      apply Continued_app_line; auto. rewrite E. discriminate.
    + now rewrite !append_assoc.
Qed.

(** A line feed, the tabulations, then an indented text: a run of
    lines. *)
Lemma Continued_Indented (n : nat) (s : string) :
  Indented n s -> Continued n (LF ++ tabs_text n ++ s).
Proof.
  intros (first & rest & Hf & Hr & ->). now constructor.
Qed.

Lemma Indented_star (n : nat) (b : bool) (d : string) :
  Indented n d -> Indented n (if b then "*" ++ d else d).
Proof.
  intros H. destruct b; [|exact H].
  apply Indented_app; [now apply Indented_one_line|exact H].
Qed.

Lemma namedTypeName_one_line (ut : UserType) (versioned : bool) (defPkg : string) :
  one_line defPkg = true ->
  one_line (namedTypeName ut versioned defPkg) = true.
Proof.
  intros Hp. unfold namedTypeName, PackagePrefix. cbv zeta.
  rewrite one_line_append, Goify_one_line, andb_true_r.
  destruct (negb versioned); [reflexivity|].
  destruct (Nat.eqb _ 0); [|reflexivity].
  now rewrite one_line_append, Hp.
Qed.

Lemma GoNativeType_Primitive_one_line (k : Kind) (s : string) :
  GoNativeType_Primitive k = Ok s -> one_line s = true.
Proof.
  destruct k; simpl; intros H; try discriminate H; injection H as <-; reflexivity.
Qed.

Lemma fieldTags_one_line (def : AttributeDefinition) (name : string) (jsonTags : bool) :
  negb jsonTags || one_line name = true ->
  one_line (fieldTags def name jsonTags) = true.
Proof.
  unfold fieldTags. destruct jsonTags; [|reflexivity].
  simpl negb. simpl orb. intros Hn. cbv zeta.
  rewrite !one_line_append, Hn.
  destruct (negb (IsRequired def name)); reflexivity.
Qed.

(** The body of a struct whose entries are indented one level deeper is
    a run of lines of the level of the struct. *)
Lemma struct_Continued (n : nat) (entries : list string) :
  Forall (fun e => exists r, e = tabs_text (S n) ++ r ++ LF /\ Indented (S n) r)
         entries ->
  Continued n (LF ++ concat_strings entries ++ tabs_text n ++ "}").
Proof.
  induction 1 as [|e entries (r & -> & Hr) _ IH].
  - change (Continued n (LF ++ tabs_text n ++ "}" ++ EmptyString)).
    constructor; [reflexivity|constructor].
  - replace (LF ++ concat_strings ((tabs_text (S n) ++ r ++ LF) :: entries)
               ++ tabs_text n ++ "}")
      with ((LF ++ tabs_text (S n) ++ r)
              ++ (LF ++ concat_strings entries ++ tabs_text n ++ "}")).
    + apply Continued_app; [|exact IH].
      apply Continued_S. now apply Continued_Indented.
    + cbn [concat_strings]. now rewrite !append_assoc.
Qed.

(** Without descriptions, a definition is indented at its level. *)
Lemma GoTypeDef_switch_Indented
    (range_keys : ObjectFields -> list string)
    (IsPrimitivePointer : AttributeDefinition -> string -> bool)
    (versioned : bool) (defPkg : string) (jsonTags : bool) (t : DataType) :
  one_line defPkg = true ->
  no_descriptions jsonTags t = true ->
  forall def tabs s,
    (0 <= tabs)%Z ->
    GoTypeDef_switch range_keys IsPrimitivePointer t def versioned defPkg tabs jsonTags
    = Ok s ->
    Indented (Z.to_nat tabs) s.
Proof.
  intros Hp.
  induction t as [k|e IHe|actual IH|k e IHk IHe|ut _|mt _] using DataType_induction;
    intros Hnd def tabs s Htabs.
  - intros H. apply Indented_one_line.
    now apply (GoNativeType_Primitive_one_line k).
  - cbn [GoTypeDef_switch]. cbn [no_descriptions] in Hnd.
    destruct (GoTypeDef_switch _ _ (Type_ e) e _ _ _ _) as [d|msg] eqn:E;
      cbn [bind]; [|discriminate].
    intros H. injection H as <-.
    change (Indented (Z.to_nat tabs)
              ("[]" ++ (if IsObject (Type_ e) then "*" ++ d else d))).
    apply Indented_app; [now apply Indented_one_line|].
    apply Indented_star. now apply (IHe Hnd e).
  - rewrite GoTypeDef_switch_Object.
    destruct (mapM _ _) as [entries|msg] eqn:E; cbn [bind]; [|discriminate].
    intros H. injection H as <-.
    exists "struct {",
      (LF ++ concat_strings entries ++ tabs_text (Z.to_nat tabs) ++ "}").
    split; [reflexivity|]. split; [|reflexivity].
    apply struct_Continued.
    apply mapM_Forall2 in E.
    eapply Forall2_Forall_r; [|exact E].
    intros name entry He. cbv beta in He.
    apply fieldEntry_Ok in He as (field & typedef & Hl & Ht & ->).
    apply lookup_In in Hl.
    cbn [no_descriptions] in Hnd. rewrite forallb_forall in Hnd.
    specialize (Hnd _ Hl). simpl in Hnd.
    apply andb_prop in Hnd as [Hnd Hf]. apply andb_prop in Hnd as [Hd Hn].
    apply String.eqb_eq in Hd.
    exists (Goify name true ++ " "
            ++ (if IsObject (Type_ field) || IsPrimitivePointer def name
                then "*" ++ typedef else typedef)
            ++ fieldTags def name jsonTags).
    split.
    + rewrite Hd. unfold WriteTabs, tabs_text.
      replace (Z.to_nat (tabs + 1)) with (S (Z.to_nat tabs)) by lia.
      change (fieldDesc EmptyString) with EmptyString.
      now rewrite !append_assoc.
    + unfold GoTypeDef in Ht. cbv zeta in Ht. simpl Definition_ in Ht.
      apply (IH name field Hl Hf field) in Ht; [|lia].
      replace (Z.to_nat (tabs + 1)) with (S (Z.to_nat tabs)) in Ht by lia.
      apply Indented_app; [apply Indented_one_line, Goify_one_line|].
      apply Indented_app; [now apply Indented_one_line|].
      apply Indented_app; [now apply Indented_star|].
      apply Indented_one_line. now apply fieldTags_one_line.
  - cbn [GoTypeDef_switch]. cbn [no_descriptions] in Hnd.
    apply andb_prop in Hnd as [Hk He].
    destruct (GoTypeDef_switch _ _ (Type_ k) k _ _ _ _) as [kd|msg] eqn:Ek;
      cbn [bind]; [|discriminate].
    destruct (GoTypeDef_switch _ _ (Type_ e) e _ _ _ _) as [ed|msg] eqn:Ee;
      cbn [bind]; [|discriminate].
    intros H. injection H as <-.
    change (Indented (Z.to_nat tabs)
              ("map[" ++ (if IsObject (Type_ k) then "*" ++ kd else kd)
                 ++ "]" ++ (if IsObject (Type_ e) then "*" ++ ed else ed))).
    apply Indented_app; [now apply Indented_one_line|].
    apply Indented_app; [apply Indented_star; now apply (IHk Hk k)|].
    apply Indented_app; [now apply Indented_one_line|].
    apply Indented_star. now apply (IHe He e).
  - cbn [GoTypeDef_switch]. intros H. injection H as <-.
    apply Indented_one_line. now apply namedTypeName_one_line.
  - cbn [GoTypeDef_switch]. intros H. injection H as <-.
    apply Indented_one_line. now apply namedTypeName_one_line.
Qed.

Lemma lines_from_one_line (l cur s : string) :
  one_line l = true -> lines_from cur (l ++ s) = lines_from (cur ++ l) s.
Proof.
  revert cur.
  induction l as [|x l IH]; intros cur Hl.
  - now rewrite append_empty_r.
  - unfold one_line in Hl. cbn [contains] in Hl.
    apply negb_true_iff, orb_false_elim in Hl as [Hx Hl].
    cbn [append lines_from]. rewrite Hx.
    rewrite IH; [|unfold one_line; now rewrite Hl].
    now rewrite append_assoc.
Qed.

Lemma lines_from_LF (cur s : string) :
  lines_from cur (LF ++ s) = cur :: lines_from EmptyString s.
Proof. reflexivity. Qed.

Lemma prefix_append (a b : string) : String.prefix a (a ++ b) = true.
Proof.
  induction a as [|x a IH]; simpl.
  - now destruct b.
  - destruct (ascii_dec x x); [exact IH|contradiction].
Qed.

Lemma prefix_append_assoc (a b c : string) : String.prefix a ((a ++ b) ++ c) = true.
Proof. rewrite append_assoc. apply prefix_append. Qed.

(** The lines of a run: the line being read, then lines that start
    with the tabulations. *)
Lemma lines_from_Continued (n : nat) (c : string) :
  Continued n c ->
  forall cur,
    exists rest,
      lines_from cur c = cur :: rest
      /\ forallb (String.prefix (tabs_text n)) rest = true.
Proof.
  induction 1 as [|l c Hl Hc IH]; intros cur.
  - exists []. split; reflexivity.
  - rewrite lines_from_LF.
    rewrite lines_from_one_line by apply one_line_tabs_text.
    rewrite (lines_from_one_line l) by exact Hl.
    destruct (IH ((EmptyString ++ tabs_text n) ++ l)) as (rest & -> & Hrest).
    exists (((EmptyString ++ tabs_text n) ++ l) :: rest).
    split; [reflexivity|].
    cbn [forallb]. rewrite Hrest, andb_true_r.
    apply (prefix_append (tabs_text n) l).
Qed.

Lemma Indented_lines (n : nat) (s : string) :
  Indented n s -> indented_after_first_line (Z.of_nat n) s = true.
Proof.
  intros (first & rest & Hf & Hr & ->).
  unfold indented_after_first_line, lines, WriteTabs.
  rewrite Nat2Z.id.
  rewrite lines_from_one_line by exact Hf.
  destruct (lines_from_Continued n rest Hr (EmptyString ++ first)) as (ls & -> & Hls).
  exact Hls.
Qed.

(** When no field has a description, every line of a definition after the
    first starts with the tabulations of the level it was asked at. *)
Lemma GoTypeDef_indented_without_descriptions
    (range_keys : ObjectFields -> list string)
    (IsPrimitivePointer : AttributeDefinition -> string -> bool)
    (ds : DataStructure) (versioned : bool) (defPkg : string) (tabs : Z)
    (jsonTags : bool) (s : string) :
  (0 <= tabs)%Z ->
  one_line defPkg = true ->
  no_descriptions jsonTags (Type_ (Definition_ ds)) = true ->
  GoTypeDef range_keys IsPrimitivePointer ds versioned defPkg tabs jsonTags = Ok s ->
  indented_after_first_line tabs s = true.
Proof.
  intros Htabs Hp Hnd Hs.
  rewrite <- (Z2Nat.id tabs Htabs).
  apply Indented_lines.
  unfold GoTypeDef in Hs. cbv zeta in Hs.
  now apply (GoTypeDef_switch_Indented _ _ _ _ _ _ Hp Hnd _ _ _ Htabs Hs).
Qed.

(** * Further properties of the code *)

(** ** GoNativeType *)

Lemma GoNativeType_Primitive_known (k : Kind) :
  if known_kind k
  then exists s, GoNativeType_Primitive k = Ok s /\ contains "*"%char s = false
  else exists value,
      In value (unknown_kind k)
      /\ GoNativeType_Primitive k
         = Panic ("goa bug: unknown primitive type " ++ Sprintf_sharp_v value).
Proof.
  destruct k as [| | | | | |value]; cbn [known_kind]; try (eexists; split; reflexivity).
  exists value. split; [now left|reflexivity].
Qed.

(** [GoNativeType] returns a type for every tree whose primitives, as far
    as it looks (through arrays, maps and the underlying attribute of
    user and media types, not into the fields of an object), have known
    kinds, and the type holds no star: no pointer is ever added.  When a
    primitive it reaches has another kind, it panics, and the message
    ends with the number of the kind of the first such primitive, as
    [%#v] prints it. *)
Theorem GoNativeType_result (t : DataType) :
  match native_unknown_kind t with
  | None => exists s, GoNativeType t = Ok s /\ contains "*"%char s = false
  | Some value =>
    GoNativeType t
    = Panic ("goa bug: unknown primitive type " ++ Sprintf_sharp_v value)
  end.
Proof.
  induction t as [k|e IHe|actual _|k e IHk IHe|ut IH|mt IH] using DataType_induction;
    cbn [native_unknown_kind GoNativeType].
  - destruct k; simpl; eauto.
  - destruct (native_unknown_kind (Type_ e)).
    + now rewrite IHe.
    + destruct IHe as (s & -> & Hs). cbn [bind].
      exists ("[]" ++ s). split; [reflexivity|].
      now rewrite contains_append, Hs.
  - eexists. split; reflexivity.
  - destruct (native_unknown_kind (Type_ k)).
    + now rewrite IHk.
    + destruct IHk as (sk & -> & Hsk). cbn [bind].
      destruct (native_unknown_kind (Type_ e)).
      * now rewrite IHe.
      * destruct IHe as (se & -> & Hse). cbn [bind].
        exists ("map[" ++ sk ++ "]" ++ se). split; [reflexivity|].
        now rewrite !contains_append, Hsk, Hse.
  - exact IH.
  - exact IH.
Qed.

(** ** When the renderers panic *)

Lemma distinct_NoDup (l : list string) : distinct l = true -> NoDup l.
Proof.
  induction l as [|x l IH]; simpl; [constructor|].
  intros H. apply andb_prop in H as [Hx Hl].
  constructor; [|now apply IH].
  intros Hin. apply has_In in Hin. now rewrite Hin in Hx.
Qed.

Lemma forallb_false_In {A : Type} (f : A -> bool) (l : list A) :
  forallb f l = false -> exists a, In a l /\ f a = false.
Proof.
  induction l as [|a l IH]; simpl; [discriminate|].
  destruct (f a) eqn:E; simpl.
  - intros H. destruct (IH H) as (a' & Hin & Ha'). eauto.
  - intros _. eauto.
Qed.

(** A loop whose steps either succeed or panic with a message among [R]
    panics with a message among [R] as soon as one step panics. *)
Lemma mapM_Panic {A B : Type} (f : A -> result B) (l : list A)
    (R : string -> Prop) :
  (forall a, In a l ->
     (exists b, f a = Ok b) \/ (exists msg, R msg /\ f a = Panic msg)) ->
  (exists a msg, In a l /\ f a = Panic msg) ->
  exists msg, R msg /\ mapM f l = Panic msg.
Proof.
  induction l as [|a l IH]; intros Hall (a0 & msg0 & Hin & Ha0); [contradiction|].
  simpl.
  destruct (f a) as [b|msg'] eqn:E; cbn [bind].
  - destruct IH as (msg & HR & ->); [| |eauto].
    + intros a' Ha'. apply Hall. now right.
    + destruct Hin as [->|Hin]; [congruence|eauto].
  - destruct (Hall a (or_introl eq_refl)) as [(b & Hb)|(msg & HR & Hb)];
      [congruence|].
    exists msg. split; [exact HR|congruence].
Qed.

Section Panics.

Variable range_keys : ObjectFields -> list string.
Variable IsPrimitivePointer : AttributeDefinition -> string -> bool.
Hypothesis range_keys_perm : forall m, Permutation (range_keys m) (map fst m).

(** The switch of [GoTypeDef] succeeds on known kinds and panics on an
    unknown one, with the message of [GoNativeType] for it. *)
Lemma GoTypeDef_switch_known (versioned : bool) (defPkg : string)
    (jsonTags : bool) (t : DataType) :
  unique_keys t = true ->
  forall def tabs,
    if kinds_known t
    then exists s,
        GoTypeDef_switch range_keys IsPrimitivePointer t def versioned defPkg
          tabs jsonTags = Ok s
    else exists value,
        In value (unknown_kinds t)
        /\ GoTypeDef_switch range_keys IsPrimitivePointer t def versioned defPkg
             tabs jsonTags
           = Panic ("goa bug: unknown primitive type " ++ Sprintf_sharp_v value).
Proof.
  induction t as [k|e IHe|actual IH|k e IHk IHe|ut _|mt _] using DataType_induction;
    intros Hu def tabs; cbn [kinds_known unknown_kinds unique_keys] in *.
  - cbn [GoTypeDef_switch GoNativeType].
    generalize (GoNativeType_Primitive_known k).
    destruct (known_kind k); [intros (s & Hs & _); eauto|auto].
  - cbn [GoTypeDef_switch].
    specialize (IHe Hu e tabs).
    destruct (kinds_known (Type_ e)).
    + destruct IHe as (s & ->). cbn [bind]. eauto.
    + destruct IHe as (value & Hin & ->). cbn [bind]. eauto.
  - apply andb_prop in Hu as [Hd Hu].
    apply distinct_NoDup in Hd. rewrite forallb_forall in Hu.
    assert (HP : Permutation (sort_Strings (range_keys actual)) (map fst actual)).
    { rewrite sort_Strings_perm. apply range_keys_perm. }
    assert (Hentry : forall name field, In (name, field) actual ->
      if kinds_known (Type_ field)
      then exists entry,
          fieldEntry range_keys IsPrimitivePointer def actual versioned defPkg
            tabs jsonTags name = Ok entry
      else exists value,
          In value (unknown_kinds (Type_ field))
          /\ fieldEntry range_keys IsPrimitivePointer def actual versioned defPkg
               tabs jsonTags name
             = Panic ("goa bug: unknown primitive type " ++ Sprintf_sharp_v value)).
    { intros name field Hin.
      assert (Hf : forall k : AttributeDefinition -> result string,
                 with_field k name actual = k field).
      { intros k. rewrite with_field_lookup.
        now rewrite (lookup_NoDup_In (A := AttributeDefinition) name actual field Hd Hin). }
      generalize (IH name field Hin (Hu _ Hin) field (tabs + 1)%Z).
      unfold fieldEntry, GoTypeDef. cbv zeta. simpl Definition_.
      destruct (kinds_known (Type_ field)).
      - intros (s & Hs). rewrite Hf, Hs. cbn [bind]. eauto.
      - intros (value & Hv & Hs). rewrite Hf, Hs. cbn [bind]. eauto. }
    rewrite GoTypeDef_switch_Object.
    destruct (forallb _ actual) eqn:Hk.
    + rewrite forallb_forall in Hk.
      destruct (mapM_total
                  (fieldEntry range_keys IsPrimitivePointer def actual
                     versioned defPkg tabs jsonTags)
                  (sort_Strings (range_keys actual))) as [entries ->].
      * intros name Hin. apply (Permutation_in _ HP) in Hin.
        apply In_lookup in Hin as [field Hl]. apply lookup_In in Hl.
        generalize (Hentry name field Hl).
        pose proof (Hk _ Hl) as Hkf. simpl in Hkf. now rewrite Hkf.
      * cbn [bind]. eauto.
    + destruct (mapM_Panic
                  (fieldEntry range_keys IsPrimitivePointer def actual
                     versioned defPkg tabs jsonTags)
                  (sort_Strings (range_keys actual))
                  (fun msg => exists value,
                       In value (unknown_kinds (Object actual))
                       /\ msg = "goa bug: unknown primitive type "
                                ++ Sprintf_sharp_v value))
        as (msg & (value & Hv & ->) & ->).
      * intros name Hin. apply (Permutation_in _ HP) in Hin.
        apply In_lookup in Hin as [field Hl]. apply lookup_In in Hl.
        generalize (Hentry name field Hl).
        destruct (kinds_known (Type_ field)); [now left|].
        intros (value & Hv & Hs). right. eexists. split; [|exact Hs].
        exists value. split; [|reflexivity].
        cbn [unknown_kinds]. apply in_flat_map.
        exists (name, field). split; [exact Hl|exact Hv].
      * apply forallb_false_In in Hk as ([name field] & Hin & Hf).
        generalize (Hentry name field Hin). simpl in Hf. rewrite Hf.
        intros (value & _ & Hs).
        exists name. eexists. split; [|exact Hs].
        apply (Permutation_in _ (Permutation_sym HP)).
        now apply (in_map fst) in Hin.
      * cbn [bind]. exists value. split; [exact Hv|reflexivity].
  - cbn [GoTypeDef_switch].
    apply andb_prop in Hu as [Huk Hue].
    specialize (IHk Huk k tabs). specialize (IHe Hue e tabs).
    destruct (kinds_known (Type_ k)); cbn [andb].
    + destruct IHk as (sk & ->). cbn [bind].
      destruct (kinds_known (Type_ e)).
      * destruct IHe as (se & ->). cbn [bind]. eauto.
      * destruct IHe as (value & Hin & ->). cbn [bind].
        exists value. split; [apply in_or_app; now right|reflexivity].
    + destruct IHk as (value & Hin & ->). cbn [bind].
      exists value. split; [apply in_or_app; now left|reflexivity].
  - cbn [GoTypeDef_switch]. eauto.
  - cbn [GoTypeDef_switch]. eauto.
Qed.

Lemma GoPackageTypeName_known (t : DataType) :
  unique_keys t = true ->
  forall required versioned defPkg tabs,
    if kinds_known t
    then exists s,
        GoPackageTypeName range_keys IsPrimitivePointer t required versioned
          defPkg tabs = Ok s
    else exists value,
        In value (unknown_kinds t)
        /\ GoPackageTypeName range_keys IsPrimitivePointer t required versioned
             defPkg tabs
           = Panic ("goa bug: unknown primitive type " ++ Sprintf_sharp_v value).
Proof.
  induction t as [k|e IHe|actual _|k e IHk IHe|ut _|mt _] using DataType_induction;
    intros Hu required versioned defPkg tabs.
  - cbn [GoPackageTypeName GoNativeType kinds_known unknown_kinds].
    generalize (GoNativeType_Primitive_known k).
    destruct (known_kind k); [intros (s & Hs & _); eauto|auto].
  - rewrite GoPackageTypeName_Array_eq, GoPackageTypeRef_star.
    cbn [kinds_known unknown_kinds unique_keys] in *.
    specialize (IHe Hu (AllRequired e) versioned defPkg (succ_int tabs)).
    destruct (kinds_known (Type_ e)).
    + destruct IHe as (s & ->). cbn [rmap bind]. eauto.
    + destruct IHe as (value & Hin & ->). cbn [rmap bind]. eauto.
  - rewrite GoPackageTypeName_Object_eq. unfold GoTypeDef. cbv zeta.
    replace (Type_ (Definition_ (DSAttribute (inlineAttribute (Object actual) required))))
      with (Object actual)
      by (unfold inlineAttribute; cbv zeta; now destruct (Nat.ltb _ _)).
    now apply GoTypeDef_switch_known.
  - rewrite GoPackageTypeName_Hash_eq, !GoPackageTypeRef_star.
    cbn [kinds_known unknown_kinds unique_keys] in *.
    apply andb_prop in Hu as [Huk Hue].
    specialize (IHk Huk (AllRequired k) versioned defPkg (succ_int tabs)).
    specialize (IHe Hue (AllRequired e) versioned defPkg (succ_int tabs)).
    destruct (kinds_known (Type_ k)); cbn [andb].
    + destruct IHk as (sk & ->). cbn [rmap bind].
      destruct (kinds_known (Type_ e)).
      * destruct IHe as (se & ->). cbn [rmap bind]. eauto.
      * destruct IHe as (value & Hin & ->). cbn [rmap bind].
        exists value. split; [apply in_or_app; now right|reflexivity].
    + destruct IHk as (value & Hin & ->). cbn [rmap bind].
      exists value. split; [apply in_or_app; now left|reflexivity].
  - cbn [GoPackageTypeName kinds_known]. eauto.
  - cbn [GoPackageTypeName kinds_known]. eauto.
Qed.

End Panics.

(** [GoTypeDef] returns a definition for every data structure whose
    primitives, as far as it looks (through arrays, maps and object
    fields, not into the attribute of a user or media type), have known
    kinds.  When one of them has another kind it panics with the message
    of [GoNativeType] for such a primitive below it: the text of line 192
    followed by the number of the kind as [%#v] prints it.  On the trees
    of this model it does not panic for any other reason. *)
Theorem GoTypeDef_succeeds_or_panics
    (range_keys : ObjectFields -> list string)
    (IsPrimitivePointer : AttributeDefinition -> string -> bool)
    (ds : DataStructure) (versioned : bool) (defPkg : string) (tabs : Z)
    (jsonTags : bool) :
  (forall m, Permutation (range_keys m) (map fst m)) ->
  unique_keys (Type_ (Definition_ ds)) = true ->
  if kinds_known (Type_ (Definition_ ds))
  then exists s,
      GoTypeDef range_keys IsPrimitivePointer ds versioned defPkg tabs jsonTags
      = Ok s
  else exists value,
      In value (unknown_kinds (Type_ (Definition_ ds)))
      /\ GoTypeDef range_keys IsPrimitivePointer ds versioned defPkg tabs jsonTags
         = Panic ("goa bug: unknown primitive type " ++ Sprintf_sharp_v value).
Proof.
  intros Hrange Hu. unfold GoTypeDef. cbv zeta.
  now apply GoTypeDef_switch_known.
Qed.

(** An object with a field that is an array of a primitive of the
    unknown kind 99: [GoTypeDef] panics, and the message ends in [0x63]. *)
Lemma GoTypeDef_panics_witness :
  GoTypeDef range_listed IsPrimitivePointer_optional
    (DSAttribute example_unknown_kind) false EmptyString 0 true
  = Panic "goa bug: unknown primitive type 0x63".
Proof.
  assert (H := GoTypeDef_succeeds_or_panics range_listed
                 IsPrimitivePointer_optional
                 (DSAttribute example_unknown_kind) false EmptyString 0 true
                 range_listed_keys eq_refl).
  change (exists value,
             In value [99%N]
             /\ GoTypeDef range_listed IsPrimitivePointer_optional
                  (DSAttribute example_unknown_kind) false EmptyString 0 true
                = Panic ("goa bug: unknown primitive type "
                         ++ Sprintf_sharp_v value)) in H.
  destruct H as (value & [<-|[]] & H). exact H.
Defined.

(** [GoPackageTypeName] and [GoPackageTypeRef] return a name, and a
    reference, for every type whose primitives, as far as they look,
    have known kinds, and panic otherwise, both with the message of
    [GoNativeType] for one primitive of another kind below the type. *)
Theorem GoPackageTypeName_succeeds_or_panics
    (range_keys : ObjectFields -> list string)
    (IsPrimitivePointer : AttributeDefinition -> string -> bool)
    (t : DataType) (required : list string) (versioned : bool)
    (defPkg : string) (tabs : Z) :
  (forall m, Permutation (range_keys m) (map fst m)) ->
  unique_keys t = true ->
  if kinds_known t
  then (exists s, GoPackageTypeName range_keys IsPrimitivePointer t required
                    versioned defPkg tabs = Ok s)
       /\ (exists s, GoPackageTypeRef range_keys IsPrimitivePointer t required
                       versioned defPkg tabs = Ok s)
  else exists value,
      In value (unknown_kinds t)
      /\ GoPackageTypeName range_keys IsPrimitivePointer t required
           versioned defPkg tabs
         = Panic ("goa bug: unknown primitive type " ++ Sprintf_sharp_v value)
      /\ GoPackageTypeRef range_keys IsPrimitivePointer t required
           versioned defPkg tabs
         = Panic ("goa bug: unknown primitive type " ++ Sprintf_sharp_v value).
Proof.
  intros Hrange Hu.
  rewrite GoPackageTypeRef_star.
  generalize (GoPackageTypeName_known range_keys IsPrimitivePointer Hrange t Hu
                required versioned defPkg tabs).
  destruct (kinds_known t).
  - intros (s & ->). cbn [rmap bind]. eauto.
  - intros (value & Hin & ->). exists value. repeat split; assumption.
Qed.

(** The type name of a map from strings to arrays of [foo] values. *)
Lemma GoPackageTypeName_succeeds_witness :
  (exists s, GoPackageTypeName range_listed IsPrimitivePointer_optional
               example_map_of_arrays [] true "app" 0 = Ok s)
  /\ (exists s, GoPackageTypeRef range_listed IsPrimitivePointer_optional
                  example_map_of_arrays [] true "app" 0 = Ok s).
Proof.
  exact (GoPackageTypeName_succeeds_or_panics range_listed
           IsPrimitivePointer_optional example_map_of_arrays [] true "app" 0
           range_listed_keys eq_refl).
Defined.

(** ** Types without inline objects *)

Lemma GoTypeDef_switch_object_free
    (range_keys : ObjectFields -> list string)
    (IsPrimitivePointer : AttributeDefinition -> string -> bool)
    (versioned : bool) (defPkg : string) (t : DataType) :
  object_free t = true ->
  forall def tabs jsonTags required tabs',
    GoTypeDef_switch range_keys IsPrimitivePointer t def versioned defPkg tabs jsonTags
    = GoPackageTypeName range_keys IsPrimitivePointer t required versioned defPkg tabs'.
Proof.
  induction t as [k|e IHe|actual _|k e IHk IHe|ut _|mt _] using DataType_induction;
    cbn [object_free]; intros Hf def tabs jsonTags required tabs'.
  - reflexivity.
  - rewrite GoPackageTypeName_Array_eq, GoPackageTypeRef_star.
    cbn [GoTypeDef_switch].
    rewrite (IHe Hf e tabs jsonTags (AllRequired e) (succ_int tabs')).
    unfold rmap. rewrite bind_assoc. reflexivity.
  - discriminate.
  - apply andb_prop in Hf as [Hk He].
    rewrite GoPackageTypeName_Hash_eq, !GoPackageTypeRef_star.
    cbn [GoTypeDef_switch].
    rewrite (IHk Hk k tabs jsonTags (AllRequired k) (succ_int tabs')).
    rewrite (IHe He e tabs jsonTags (AllRequired e) (succ_int tabs')).
    unfold rmap. rewrite !bind_assoc. apply bind_ext. intros kd. cbn [bind].
    rewrite bind_assoc. reflexivity.
  - reflexivity.
  - reflexivity.
Qed.

(** When the type of a data structure holds no inline object (no bare
    object reached through arrays and maps), its definition is its type
    name: [GoTypeDef] and [GoPackageTypeName] return the same result,
    whatever the indentation, the tags flag and the required fields they
    are given. *)
Theorem GoTypeDef_is_type_name_without_objects
    (range_keys : ObjectFields -> list string)
    (IsPrimitivePointer : AttributeDefinition -> string -> bool)
    (ds : DataStructure) (versioned : bool) (defPkg : string)
    (tabs : Z) (jsonTags : bool) (required : list string) (tabs' : Z) :
  object_free (Type_ (Definition_ ds)) = true ->
  GoTypeDef range_keys IsPrimitivePointer ds versioned defPkg tabs jsonTags
  = GoPackageTypeName range_keys IsPrimitivePointer (Type_ (Definition_ ds))
      required versioned defPkg tabs'.
Proof.
  intros Hf. unfold GoTypeDef. cbv zeta.
  now apply GoTypeDef_switch_object_free.
Qed.

(** The definition of a map from strings to arrays of [foo] values,
    with tags at indentation 3, is its type name at indentation 0. *)
Lemma GoTypeDef_is_type_name_witness :
  GoTypeDef range_listed IsPrimitivePointer_optional
    (DSAttribute (attribute example_map_of_arrays)) true "app" 3 true
  = GoPackageTypeName range_listed IsPrimitivePointer_optional
      example_map_of_arrays ["x"] true "app" 0.
Proof.
  exact (GoTypeDef_is_type_name_without_objects range_listed
           IsPrimitivePointer_optional
           (DSAttribute (attribute example_map_of_arrays))
           true "app" 3 true ["x"] 0 eq_refl).
Defined.

Lemma plain_object_free (t : DataType) : plain t = true -> object_free t = true.
Proof.
  induction t as [k|e IHe|actual _|k e IHk IHe|ut _|mt _] using DataType_induction;
    cbn [plain object_free]; auto; try discriminate.
  intros H. apply andb_prop in H as [Hk He]. now rewrite IHk, IHe.
Qed.

Lemma plain_not_object (t : DataType) : plain t = true -> IsObject t = false.
Proof. destruct t; simpl; auto; discriminate. Qed.

Lemma GoPackageTypeName_plain
    (range_keys : ObjectFields -> list string)
    (IsPrimitivePointer : AttributeDefinition -> string -> bool)
    (t : DataType) :
  plain t = true ->
  forall required versioned defPkg tabs,
    GoPackageTypeName range_keys IsPrimitivePointer t required versioned defPkg tabs
    = GoNativeType t.
Proof.
  induction t as [k|e IHe|actual _|k e IHk IHe|ut _|mt _] using DataType_induction;
    cbn [plain]; intros Hp required versioned defPkg tabs; try discriminate.
  - reflexivity.
  - rewrite GoPackageTypeName_Array_eq, GoPackageTypeRef_star.
    rewrite (plain_not_object _ Hp), (IHe Hp).
    cbn [GoNativeType]. unfold rmap. rewrite bind_assoc. reflexivity.
  - apply andb_prop in Hp as [Hk He].
    rewrite GoPackageTypeName_Hash_eq, !GoPackageTypeRef_star.
    rewrite (plain_not_object _ Hk), (plain_not_object _ He), (IHk Hk), (IHe He).
    cbn [GoNativeType]. unfold rmap. rewrite !bind_assoc.
    apply bind_ext. intros kd. cbn [bind]. rewrite bind_assoc. reflexivity.
Qed.

(** On a type built from primitives, arrays and maps only, the four
    renderers agree: the type name, the type reference and the type
    definition are the native type [GoNativeType] returns, or they all
    panic as it does. *)
Theorem renderers_agree_on_plain_types
    (range_keys : ObjectFields -> list string)
    (IsPrimitivePointer : AttributeDefinition -> string -> bool)
    (ds : DataStructure) (required : list string) (versioned : bool)
    (defPkg : string) (tabs : Z) (jsonTags : bool) :
  plain (Type_ (Definition_ ds)) = true ->
  GoPackageTypeName range_keys IsPrimitivePointer (Type_ (Definition_ ds))
    required versioned defPkg tabs
  = GoNativeType (Type_ (Definition_ ds))
  /\ GoPackageTypeRef range_keys IsPrimitivePointer (Type_ (Definition_ ds))
       required versioned defPkg tabs
     = GoNativeType (Type_ (Definition_ ds))
  /\ GoTypeDef range_keys IsPrimitivePointer ds versioned defPkg tabs jsonTags
     = GoNativeType (Type_ (Definition_ ds)).
Proof.
  intros Hp.
  split; [now apply GoPackageTypeName_plain|].
  split.
  - rewrite GoPackageTypeRef_star, (plain_not_object _ Hp).
    rewrite (GoPackageTypeName_plain _ _ _ Hp).
    unfold rmap. apply bind_Ok_r.
  - unfold GoTypeDef. cbv zeta.
    rewrite (GoTypeDef_switch_object_free _ _ _ _ _ (plain_object_free _ Hp)
               _ _ _ required tabs).
    now apply GoPackageTypeName_plain.
Qed.

(** The renderers on a map from strings to arrays of integers. *)
Lemma renderers_agree_witness :
  GoPackageTypeName range_listed IsPrimitivePointer_optional
    (Hash (attribute (Primitive StringKind))
          (attribute (Array (attribute (Primitive IntegerKind)))))
    [] true "app" 0
  = Ok "map[string][]int".
Proof.
  exact (proj1 (renderers_agree_on_plain_types range_listed
                  IsPrimitivePointer_optional
                  (DSAttribute
                     (attribute
                        (Hash (attribute (Primitive StringKind))
                              (attribute (Array (attribute (Primitive IntegerKind)))))))
                  [] true "app" 0 false eq_refl)).
Defined.

(** ** The default package name is read from version packages only *)

Lemma namedTypeName_unversioned (ut : UserType) (defPkg1 defPkg2 : string) :
  namedTypeName ut false defPkg1 = namedTypeName ut false defPkg2.
Proof. reflexivity. Qed.

Lemma GoTypeDef_switch_unversioned
    (range_keys : ObjectFields -> list string)
    (IsPrimitivePointer : AttributeDefinition -> string -> bool)
    (defPkg1 defPkg2 : string) (t : DataType) :
  forall def tabs jsonTags,
    GoTypeDef_switch range_keys IsPrimitivePointer t def false defPkg1 tabs jsonTags
    = GoTypeDef_switch range_keys IsPrimitivePointer t def false defPkg2 tabs jsonTags.
Proof.
  induction t as [k|e IHe|actual IH|k e IHk IHe|ut _|mt _] using DataType_induction;
    intros def tabs jsonTags.
  - reflexivity.
  - cbn [GoTypeDef_switch]. now rewrite IHe.
  - rewrite !GoTypeDef_switch_Object.
    f_equal. apply mapM_ext. intros name.
    unfold fieldEntry. apply with_field_ext. intros n field Hin.
    unfold GoTypeDef. cbv zeta. simpl Definition_.
    now rewrite (IH n field Hin).
  - cbn [GoTypeDef_switch]. rewrite IHk. apply bind_ext. intros keyDef.
    now rewrite IHe.
  - reflexivity.
  - reflexivity.
Qed.

Lemma GoPackageTypeName_unversioned
    (range_keys : ObjectFields -> list string)
    (IsPrimitivePointer : AttributeDefinition -> string -> bool)
    (defPkg1 defPkg2 : string) (t : DataType) :
  forall required tabs,
    GoPackageTypeName range_keys IsPrimitivePointer t required false defPkg1 tabs
    = GoPackageTypeName range_keys IsPrimitivePointer t required false defPkg2 tabs.
Proof.
  induction t as [k|e IHe|actual _|k e IHk IHe|ut _|mt _] using DataType_induction;
    intros required tabs.
  - reflexivity.
  - rewrite !GoPackageTypeName_Array_eq, !GoPackageTypeRef_star.
    now rewrite IHe.
  - rewrite !GoPackageTypeName_Object_eq.
    apply GoTypeDef_switch_unversioned.
  - rewrite !GoPackageTypeName_Hash_eq, !GoPackageTypeRef_star.
    now rewrite IHk, IHe.
  - reflexivity.
  - reflexivity.
Qed.

(** From the default package ([versioned] false) the name of the default
    package is never read: [GoTypeDef], [GoPackageTypeName] and
    [GoPackageTypeRef] return the same result for any two values of
    [defPkg], so that [GoTypeName] and [GoTypeRef], which pass the empty
    name, are [GoPackageTypeName] and [GoPackageTypeRef] from the
    default package under any name. *)
Theorem defPkg_unused_when_unversioned
    (range_keys : ObjectFields -> list string)
    (IsPrimitivePointer : AttributeDefinition -> string -> bool)
    (ds : DataStructure) (t : DataType) (required : list string)
    (defPkg1 defPkg2 : string) (tabs : Z) (jsonTags : bool) :
  GoTypeDef range_keys IsPrimitivePointer ds false defPkg1 tabs jsonTags
  = GoTypeDef range_keys IsPrimitivePointer ds false defPkg2 tabs jsonTags
  /\ GoPackageTypeName range_keys IsPrimitivePointer t required false defPkg1 tabs
     = GoPackageTypeName range_keys IsPrimitivePointer t required false defPkg2 tabs
  /\ GoPackageTypeRef range_keys IsPrimitivePointer t required false defPkg1 tabs
     = GoPackageTypeRef range_keys IsPrimitivePointer t required false defPkg2 tabs
  /\ GoTypeName range_keys IsPrimitivePointer t required tabs
     = GoPackageTypeName range_keys IsPrimitivePointer t required false defPkg1 tabs
  /\ GoTypeRef range_keys IsPrimitivePointer t required tabs
     = GoPackageTypeRef range_keys IsPrimitivePointer t required false defPkg1 tabs.
Proof.
  split; [apply GoTypeDef_switch_unversioned|].
  split; [apply GoPackageTypeName_unversioned|].
  split.
  { rewrite !GoPackageTypeRef_star.
    now rewrite (GoPackageTypeName_unversioned _ _ defPkg1 defPkg2). }
  split; [unfold GoTypeName; apply GoPackageTypeName_unversioned|].
  unfold GoTypeRef. rewrite !GoPackageTypeRef_star.
  now rewrite (GoPackageTypeName_unversioned _ _ EmptyString defPkg1).
Qed.

(** ** The required fields are read for a bare object only *)

(** [GoPackageTypeName] and [GoPackageTypeRef] read their [required]
    argument only when the type is a bare object: for every other type
    (also an array or a map of objects, whose required fields are those
    of the element attribute) any two values give the same result. *)
Theorem required_read_for_objects_only
    (range_keys : ObjectFields -> list string)
    (IsPrimitivePointer : AttributeDefinition -> string -> bool)
    (t : DataType) (required1 required2 : list string)
    (versioned : bool) (defPkg : string) (tabs : Z) :
  (forall actual, t <> Object actual) ->
  GoPackageTypeName range_keys IsPrimitivePointer t required1 versioned defPkg tabs
  = GoPackageTypeName range_keys IsPrimitivePointer t required2 versioned defPkg tabs
  /\ GoPackageTypeRef range_keys IsPrimitivePointer t required1 versioned defPkg tabs
     = GoPackageTypeRef range_keys IsPrimitivePointer t required2 versioned defPkg tabs.
Proof.
  intros Hno.
  assert (H : GoPackageTypeName range_keys IsPrimitivePointer t required1
                versioned defPkg tabs
              = GoPackageTypeName range_keys IsPrimitivePointer t required2
                  versioned defPkg tabs).
  { destruct t as [k|e|actual|k e|ut|mt]; try reflexivity.
    now destruct (Hno actual). }
  split; [exact H|].
  now rewrite !GoPackageTypeRef_star, H.
Qed.

(** The array of [foo] values under two lists of required fields. *)
Lemma required_read_witness :
  GoPackageTypeName range_listed IsPrimitivePointer_optional
    example_array_of_user_object ["a"] false EmptyString 0
  = GoPackageTypeName range_listed IsPrimitivePointer_optional
      example_array_of_user_object [] false EmptyString 0.
Proof.
  refine (proj1 (required_read_for_objects_only range_listed
                   IsPrimitivePointer_optional example_array_of_user_object
                   ["a"] [] false EmptyString 0 _)).
  intros actual. discriminate.
Defined.

(** ** More on Goify *)

Lemma all_bytes_append (P : ascii -> bool) (a b : string) :
  all_bytes P (a ++ b) = all_bytes P a && all_bytes P b.
Proof.
  induction a as [|c a IH]; simpl; [reflexivity|].
  now rewrite IH, andb_assoc.
Qed.

Lemma for_all_bytes_spec (P : ascii -> bool) :
  for_all_bytes P = true -> forall c, P c = true.
Proof.
  intros H c. unfold for_all_bytes in H. rewrite forallb_forall in H.
  apply H. unfold byte_values.
  rewrite <- (ascii_nat_embedding c). apply in_map.
  apply in_seq. split; [lia|]. simpl. apply nat_ascii_bounded.
Qed.

(** By enumeration of the 256 byte values: a letter or digit is written,
    in either case, as identifier bytes, and its upper case never starts
    with a lower case ASCII letter. *)
Lemma written_rune_ident (c : ascii) :
  unicode.IsLetter (N_of_ascii c) || unicode.IsDigit (N_of_ascii c) = true ->
  all_bytes ident_byte (WriteRune EmptyString (N_of_ascii c)) = true
  /\ all_bytes ident_byte (WriteRune EmptyString (unicode.ToUpper (N_of_ascii c))) = true
  /\ all_bytes ident_byte (WriteRune EmptyString (unicode.ToLower (N_of_ascii c))) = true
  /\ exists x w,
       WriteRune EmptyString (unicode.ToUpper (N_of_ascii c)) = String x w
       /\ ascii_lower x = false.
Proof.
  intros E.
  assert (H : for_all_bytes written_check = true) by (vm_compute; reflexivity).
  apply for_all_bytes_spec with (c := c) in H.
  unfold written_check in H. cbv zeta in H. rewrite E in H. cbn [implb] in H.
  apply andb_prop in H as [H Hs]. apply andb_prop in H as [H HL].
  apply andb_prop in H as [H0 HU].
  repeat (split; [assumption|]).
  destruct (WriteRune EmptyString (unicode.ToUpper (N_of_ascii c))) as [|x w];
    [discriminate Hs|].
  exists x, w. split; [reflexivity|].
  simpl in Hs. now apply negb_true_iff in Hs.
Qed.

(** By enumeration: a digit is written as itself, whatever the case
    asked for. *)
Lemma written_digit (c : ascii) :
  ascii_digit c = true ->
  WriteRune EmptyString (unicode.ToUpper (N_of_ascii c)) = String c EmptyString
  /\ WriteRune EmptyString (unicode.ToLower (N_of_ascii c)) = String c EmptyString.
Proof.
  intros E.
  assert (H : for_all_bytes digit_check = true) by (vm_compute; reflexivity).
  apply for_all_bytes_spec with (c := c) in H.
  unfold digit_check in H. cbv zeta in H. rewrite E in H. cbn [implb] in H.
  apply andb_prop in H as [HU HL].
  apply String.eqb_eq in HU, HL. auto.
Qed.

Lemma Goify_loop_ident (str : string) (firstUpper : bool) :
  forall b firstWritten nextUpper,
    all_bytes ident_byte b = true ->
    all_bytes ident_byte (Goify_loop str firstUpper b firstWritten nextUpper) = true.
Proof.
  induction str as [|c str IH]; intros b fw nu Hb; [exact Hb|].
  cbn [Goify_loop]. cbv zeta.
  destruct (N_of_ascii c =? 95)%N; [now apply IH|].
  destruct (unicode.IsLetter (N_of_ascii c) || unicode.IsDigit (N_of_ascii c)) eqn:E;
    [|now apply IH].
  destruct (written_rune_ident c E) as (H0 & HU & HL & _).
  destruct fw; simpl negb; cbv iota.
  - destruct nu; apply IH; rewrite WriteRune_append, all_bytes_append, Hb;
      [exact HU|exact H0].
  - destruct firstUpper; apply IH;
      rewrite WriteRune_append, all_bytes_append, Hb; [exact HU|exact HL].
Qed.

(** Every byte of an identifier [Goify] returns is a byte of a Go
    identifier: an ASCII letter or digit, an underscore, or a byte of
    the UTF-8 encoding of a letter beyond ASCII.  No other byte of the
    input (space, dash, dot, quote, control byte) reaches the result. *)
Theorem Goify_identifier_bytes (str : string) (firstUpper : bool) :
  all_bytes ident_byte (Goify str firstUpper) = true.
Proof.
  unfold Goify.
  destruct (String.eqb str "ok" && firstUpper); [reflexivity|].
  destruct (String.eqb str "id" && firstUpper); [reflexivity|].
  cbv zeta.
  destruct (Nat.eqb _ 0); [reflexivity|].
  assert (H : all_bytes ident_byte (Goify_buffer str firstUpper) = true)
    by now apply Goify_loop_ident.
  destruct (is_reserved _); [|exact H].
  now rewrite all_bytes_append, H.
Qed.

(** The loop only appends to its buffer. *)
Lemma Goify_loop_extends (str : string) (firstUpper : bool) :
  forall b firstWritten nextUpper,
    exists suffix,
      Goify_loop str firstUpper b firstWritten nextUpper = b ++ suffix.
Proof.
  induction str as [|c str IH]; intros b fw nu.
  - exists EmptyString. now rewrite append_empty_r.
  - cbn [Goify_loop]. cbv zeta.
    destruct (N_of_ascii c =? 95)%N; [apply IH|].
    destruct (unicode.IsLetter (N_of_ascii c) || unicode.IsDigit (N_of_ascii c));
      [|apply IH].
    assert (H : forall r fw' nu', exists suffix,
               Goify_loop str firstUpper (WriteRune b r) fw' nu' = b ++ suffix).
    { intros r fw' nu'. destruct (IH (WriteRune b r) fw' nu') as [suffix ->].
      rewrite WriteRune_append, append_assoc. eauto. }
    destruct (negb fw); [apply H|]. destruct nu; apply H.
Qed.

(** Before the first letter or digit nothing is written. *)
Lemma Goify_loop_first (str : string) (firstUpper : bool) :
  forall nextUpper,
    match first_written str with
    | None => Goify_loop str firstUpper EmptyString false nextUpper = EmptyString
    | Some c =>
      exists rest,
        Goify_loop str firstUpper EmptyString false nextUpper
        = WriteRune EmptyString
            (if firstUpper then unicode.ToUpper (N_of_ascii c)
             else unicode.ToLower (N_of_ascii c))
          ++ rest
    end.
Proof.
  induction str as [|c str IH]; intros nu; [reflexivity|].
  cbn [Goify_loop first_written]. cbv zeta.
  destruct (unicode.IsLetter (N_of_ascii c) || unicode.IsDigit (N_of_ascii c)) eqn:E.
  - assert (H95 : (N_of_ascii c =? 95)%N = false).
    { destruct (N.eqb_spec (N_of_ascii c) 95) as [H|H]; [|reflexivity].
      rewrite H in E. discriminate E. }
    rewrite H95. simpl negb. cbv iota.
    apply Goify_loop_extends.
  - destruct (N_of_ascii c =? 95)%N; apply IH.
Qed.

(** The first character of the result.  When the input has no letter
    and no digit, [Goify] returns the fallback [_v].  Otherwise the
    result starts with the first letter or digit of the input, in upper
    case when [firstUpper] is set and in lower case when it is not; when
    this first character is a digit, the result starts with that digit
    (the first character is then neither a letter nor an underscore). *)
Theorem Goify_first_character (str : string) (firstUpper : bool) :
  match first_written str with
  | None => Goify str firstUpper = "_v"
  | Some c =>
    (exists rest,
        Goify str firstUpper
        = WriteRune EmptyString
            (if firstUpper then unicode.ToUpper (N_of_ascii c)
             else unicode.ToLower (N_of_ascii c))
          ++ rest)
    /\ (ascii_digit c = true -> exists rest, Goify str firstUpper = String c rest)
  end.
Proof.
  assert (Hgen : match first_written str with
    | None => Goify str firstUpper = "_v"
    | Some c =>
      exists rest,
        Goify str firstUpper
        = WriteRune EmptyString
            (if firstUpper then unicode.ToUpper (N_of_ascii c)
             else unicode.ToLower (N_of_ascii c))
          ++ rest
    end).
  { unfold Goify.
    destruct (String.eqb str "ok" && firstUpper) eqn:H1.
    { apply andb_prop in H1 as [H1 ->]. apply String.eqb_eq in H1. subst.
      exists "K". reflexivity. }
    destruct (String.eqb str "id" && firstUpper) eqn:H2.
    { apply andb_prop in H2 as [H2 ->]. apply String.eqb_eq in H2. subst.
      exists "D". reflexivity. }
    cbv zeta. unfold Goify_buffer.
    generalize (Goify_loop_first str firstUpper false).
    destruct (first_written str) as [c|].
    - intros (rest & ->).
      assert (Hne : exists x w,
                 WriteRune EmptyString
                   (if firstUpper then unicode.ToUpper (N_of_ascii c)
                    else unicode.ToLower (N_of_ascii c)) = String x w).
      { unfold WriteRune, byte_of.
        destruct (_ <? 128)%N; [|destruct (_ <? 2048)%N];
          cbn [append]; do 2 eexists; reflexivity. }
      destruct Hne as (x & w & ->).
      cbn [append String.length Nat.eqb].
      destruct (is_reserved _).
      + exists (rest ++ "_"). cbn [append]. now rewrite append_assoc.
      + eauto.
    - intros ->. reflexivity. }
  destruct (first_written str) as [c|]; [|exact Hgen].
  split; [exact Hgen|].
  intros Hd. destruct Hgen as (rest & ->).
  destruct (written_digit c Hd) as [HU HL].
  exists rest. destruct firstUpper; [rewrite HU|rewrite HL]; reflexivity.
Qed.

(** [Goify] on a name that starts with a digit. *)
Lemma Goify_first_character_witness :
  exists rest, Goify "1st_place" true = String "1"%char rest.
Proof.
  exact (proj2 (Goify_first_character "1st_place" true) eq_refl).
Defined.

(** Every reserved word starts with a lower case ASCII letter. *)
Lemma reserved_starts_lower (res : string) :
  is_reserved res = true ->
  exists x w, res = String x w /\ ascii_lower x = true.
Proof.
  intros H. apply is_reserved_In in H. simpl in H.
  repeat (destruct H as [H|H];
          [subst res; eexists; eexists; split; reflexivity|]).
  contradiction.
Qed.

Lemma Goify_buffer_exported_not_reserved (str : string) :
  is_reserved (Goify_buffer str true) = false.
Proof.
  destruct (is_reserved (Goify_buffer str true)) eqn:E; [|reflexivity].
  apply reserved_starts_lower in E as (x & w & Hb & Hx).
  unfold Goify_buffer in Hb.
  generalize (Goify_loop_first str true false). rewrite Hb.
  assert (Hfirst : forall c, first_written str = Some c ->
            unicode.IsLetter (N_of_ascii c) || unicode.IsDigit (N_of_ascii c) = true).
  { clear. induction str as [|c' str IH]; intros c; simpl; [discriminate|].
    destruct (unicode.IsLetter (N_of_ascii c') || unicode.IsDigit (N_of_ascii c')) eqn:E.
    - intros H. injection H as <-. exact E.
    - apply IH. }
  destruct (first_written str) as [c|]; [|discriminate].
  intros (rest & Hr).
  destruct (written_rune_ident c (Hfirst c eq_refl)) as (_ & _ & _ & x' & w' & Hw & Hx').
  rewrite Hw in Hr. injection Hr as -> _. congruence.
Qed.

(** An exported identifier is never escaped.  With [firstUpper] set, the
    identifier the loop assembles is never a reserved word, so no
    underscore is appended: [Goify str true] holds no underscore at all,
    unless it is the fallback [_v]. *)
Theorem Goify_exported_no_underscore (str : string) :
  is_reserved (Goify_buffer str true) = false
  /\ (Goify str true = "_v" \/ contains "_"%char (Goify str true) = false).
Proof.
  split; [apply Goify_buffer_exported_not_reserved|].
  unfold Goify.
  destruct (String.eqb str "ok" && true); [now right|].
  destruct (String.eqb str "id" && true); [now right|].
  cbv zeta.
  destruct (Nat.eqb _ 0); [now left|].
  rewrite Goify_buffer_exported_not_reserved.
  right. apply Goify_buffer_no_underscore.
Qed.

Lemma Goify_loop_strip (str : string) (firstUpper : bool) :
  forall b firstWritten nextUpper,
    Goify_loop (strip str) firstUpper b firstWritten nextUpper
    = Goify_loop str firstUpper b firstWritten nextUpper.
Proof.
  induction str as [|c str IH]; intros b fw nu; [reflexivity|].
  cbn [strip]. unfold read_byte.
  destruct (N_of_ascii c =? 95)%N eqn:E95; cbn [orb].
  - cbn [Goify_loop]. cbv zeta. rewrite E95. apply IH.
  - destruct (unicode.IsLetter (N_of_ascii c) || unicode.IsDigit (N_of_ascii c)) eqn:E.
    + cbn [Goify_loop]. cbv zeta. rewrite E95, E.
      destruct (negb fw); [apply IH|]. destruct nu; apply IH.
    + cbn [Goify_loop]. cbv zeta. rewrite E95, E. apply IH.
Qed.

(** The bytes that are not a letter, a digit or an underscore are simply
    skipped: the loop assembles the same identifier from [str] and from
    [str] without them, so that [Goify] returns the same unexported
    identifier for both, and the same exported identifier unless the
    remaining bytes spell [ok] or [id] (the two inputs treated apart). *)
Theorem Goify_skips_other_bytes (str : string) (firstUpper : bool) :
  Goify_buffer (strip str) firstUpper = Goify_buffer str firstUpper
  /\ Goify (strip str) false = Goify str false
  /\ (strip str <> "ok" -> strip str <> "id" ->
      Goify (strip str) true = Goify str true).
Proof.
  assert (Hb : forall fu, Goify_buffer (strip str) fu = Goify_buffer str fu).
  { intros fu. apply Goify_loop_strip. }
  split; [apply Hb|]. split.
  - unfold Goify. rewrite !andb_false_r. cbv zeta. now rewrite Hb.
  - intros Hok Hid.
    assert (Hstr : str <> "ok" /\ str <> "id").
    { split; intros ->; [apply Hok|apply Hid]; reflexivity. }
    destruct Hstr as [Hok' Hid'].
    apply String.eqb_neq in Hok, Hid, Hok', Hid'.
    unfold Goify. rewrite Hok, Hid, Hok', Hid'. cbn [andb]. cbv zeta.
    now rewrite Hb.
Qed.

(** [Goify] on a name with spaces, dashes and dots. *)
Lemma Goify_skips_witness :
  Goify "userName" true = Goify "user Name-.!" true.
Proof.
  refine (proj2 (proj2 (Goify_skips_other_bytes "user Name-.!" true)) _ _);
    discriminate.
Defined.

(** ** WriteTabs and has *)

Lemma length_append (a b : string) :
  String.length (a ++ b) = String.length a + String.length b.
Proof.
  induction a as [|c a IH]; simpl; [reflexivity|]. now rewrite IH.
Qed.

Lemma tabs_text_length (n : nat) :
  String.length (tabs_text n) = n
  /\ all_bytes (Ascii.eqb (ascii_of_nat 9)) (tabs_text n) = true.
Proof.
  induction n as [|n [IH1 IH2]]; [split; reflexivity|].
  rewrite tabs_text_S, length_append, all_bytes_append, IH1, IH2.
  split; [simpl; lia|reflexivity].
Qed.

(** [WriteTabs] leaves the buffer as it is and appends [count]
    tabulation bytes, nothing else; a count that is zero or negative
    appends nothing. *)
Theorem WriteTabs_appends_tabs (buf : string) (count : Z) :
  WriteTabs buf count = buf ++ WriteTabs EmptyString count
  /\ String.length (WriteTabs EmptyString count) = Z.to_nat count
  /\ all_bytes (Ascii.eqb (ascii_of_nat 9)) (WriteTabs EmptyString count) = true
  /\ ((count <= 0)%Z -> WriteTabs buf count = buf).
Proof.
  split; [apply WriteTabs_append|].
  destruct (tabs_text_length (Z.to_nat count)) as [Hl Hb].
  split; [exact Hl|]. split; [exact Hb|].
  intros Hc. unfold WriteTabs.
  replace (Z.to_nat count) with 0%nat by lia. reflexivity.
Qed.

(** A negative count. *)
Lemma WriteTabs_negative_witness : WriteTabs "x" (-3) = "x".
Proof.
  refine (proj2 (proj2 (proj2 (WriteTabs_appends_tabs "x" (-3)))) _).
  discriminate.
Defined.

(** [has] is membership: it returns true exactly when [val] is one of
    the strings of [slice], and on two slices written one after the
    other it is true when it is on one of them. *)
Theorem has_membership (slice slice' : list string) (val : string) :
  (has slice val = true <-> In val slice)
  /\ (has slice val = false <-> ~ In val slice)
  /\ has (slice ++ slice') val = has slice val || has slice' val.
Proof.
  split; [apply has_In|]. split.
  - rewrite <- has_In. destruct (has slice val); split; congruence.
  - induction slice as [|s slice IH]; simpl; [reflexivity|].
    destruct (String.eqb s val); [reflexivity|exact IH].
Qed.

(** ** Tempvar *)

Section TempvarNames.

Variable bits : Z.
Hypothesis bits_positive : (0 < bits)%Z.

Lemma wrap_int_mod (z : Z) :
  (wrap_int bits z mod 2 ^ bits = z mod 2 ^ bits)%Z.
Proof.
  unfold wrap_int.
  assert (H2 : (0 < 2 ^ bits)%Z) by (apply Z.pow_pos_nonneg; lia).
  rewrite Zminus_mod, Z.mod_mod by lia.
  rewrite <- Zminus_mod.
  f_equal. lia.
Qed.

Lemma wrap_int_add (z k : Z) :
  wrap_int bits (wrap_int bits z + k) = wrap_int bits (z + k).
Proof.
  unfold wrap_int at 1 3. f_equal.
  assert (H2 : (0 < 2 ^ bits)%Z) by (apply Z.pow_pos_nonneg; lia).
  rewrite <- !Z.add_assoc.
  rewrite (Z.add_mod (wrap_int bits z)), wrap_int_mod, <- Z.add_mod by lia.
  reflexivity.
Qed.

(** The counter wraps to the same value only after a multiple of
    [2 ^ bits] steps. *)
Lemma wrap_int_inj (c i j : Z) :
  (0 <= i < j)%Z -> (j - i < 2 ^ bits)%Z ->
  wrap_int bits (c + i) <> wrap_int bits (c + j).
Proof.
  intros Hij Hlt Heq.
  assert (H2 : (0 < 2 ^ bits)%Z) by (apply Z.pow_pos_nonneg; lia).
  apply (f_equal (fun z => z mod 2 ^ bits)%Z) in Heq.
  rewrite !wrap_int_mod in Heq.
  assert (Hd : ((c + j - (c + i)) mod 2 ^ bits = 0)%Z).
  { rewrite Zminus_mod, Heq, Z.sub_diag. apply Z.mod_0_l. lia. }
  replace (c + j - (c + i))%Z with (j - i)%Z in Hd by lia.
  rewrite Z.mod_small in Hd by lia. lia.
Qed.

(** The names of [n] calls in a row, from the counter value [c]. *)
Lemma Tempvar_calls_names (n : nat) :
  forall c,
    fst (Tempvar_calls bits n c)
    = map (fun k => "tmp" ++ Sprintf_d (wrap_int bits (c + Z.of_nat k)))
          (seq 1 n).
Proof.
  induction n as [|n IH]; intros c; [reflexivity|].
  cbn [Tempvar_calls]. unfold Tempvar. cbv zeta.
  specialize (IH (wrap_int bits (c + 1))).
  destruct (Tempvar_calls bits n (wrap_int bits (c + 1))) as [names c'].
  cbn [fst] in *. cbn [seq map]. f_equal.
  rewrite <- seq_shift, map_map, IH.
  apply map_ext. intros k.
  rewrite wrap_int_add. do 3 f_equal. lia.
Qed.

End TempvarNames.

Lemma Sprintf_d_inj (z z' : Z) : Sprintf_d z = Sprintf_d z' -> z = z'.
Proof.
  unfold Sprintf_d. intros H.
  assert (Hnil : forall x, Z.to_int x <> Decimal.Pos Decimal.Nil
                           /\ Z.to_int x <> Decimal.Neg Decimal.Nil).
  { intros [|p|p]; simpl; split; try discriminate;
      intros E; injection E as E; now apply (DecimalPos.Unsigned.to_uint_nonnil p). }
  apply (f_equal NilZero.int_of_string) in H.
  rewrite !NilZero.isi in H by apply Hnil.
  injection H as H. now apply DecimalZ.to_int_inj.
Qed.

Lemma append_inj_l (a b c : string) : a ++ b = a ++ c -> b = c.
Proof.
  induction a as [|x a IH]; simpl; [auto|].
  intros H. injection H as H. auto.
Qed.

Lemma wrap_int_small (bits z : Z) :
  (0 < bits)%Z -> (- 2 ^ (bits - 1) <= z < 2 ^ (bits - 1))%Z ->
  wrap_int bits z = z.
Proof.
  intros Hb Hz. unfold wrap_int.
  assert (H2 : (2 ^ bits = 2 * 2 ^ (bits - 1))%Z).
  { replace bits with (Z.succ (bits - 1)) at 1 by lia.
    apply Z.pow_succ_r. lia. }
  rewrite Z.mod_small by lia. lia.
Qed.

(** [Tempvar] never gives the same name twice, as long as it is called
    at most [2 ^ bits] times for an [int] of [bits] bits: the names of
    any such run of calls are pairwise distinct, whatever the value the
    counter starts from.  While the counter does not overflow, the names
    are [tmp] followed by the successive values of the counter. *)
Theorem Tempvar_names_distinct (bits : Z) (n : nat) (TempCount : Z) :
  (0 < bits)%Z ->
  (Z.of_nat n <= 2 ^ bits)%Z ->
  NoDup (fst (Tempvar_calls bits n TempCount))
  /\ ((- 2 ^ (bits - 1) <= TempCount)%Z ->
      (TempCount + Z.of_nat n < 2 ^ (bits - 1))%Z ->
      fst (Tempvar_calls bits n TempCount)
      = map (fun k => "tmp" ++ Sprintf_d (TempCount + Z.of_nat k)) (seq 1 n)).
Proof.
  intros Hb Hn.
  rewrite (Tempvar_calls_names bits Hb).
  split.
  - apply NoDup_map_NoDup_ForallPairs; [|apply seq_NoDup].
    intros i j Hi Hj Heq.
    apply in_seq in Hi, Hj.
    apply append_inj_l, Sprintf_d_inj in Heq.
    destruct (Nat.lt_trichotomy i j) as [Hlt|[Heq'|Hgt]]; [|exact Heq'|].
    + exfalso. revert Heq. apply (wrap_int_inj bits Hb); lia.
    + exfalso. symmetry in Heq. revert Heq. apply (wrap_int_inj bits Hb); lia.
  - intros Hlo Hhi. apply map_ext_in. intros k Hk. apply in_seq in Hk.
    rewrite wrap_int_small; [reflexivity|exact Hb|lia].
Qed.

(** Three calls on a 64-bit platform, from the initial counter. *)
Lemma Tempvar_names_witness :
  NoDup (fst (Tempvar_calls 64 3 0))
  /\ fst (Tempvar_calls 64 3 0) = ["tmp1"; "tmp2"; "tmp3"].
Proof.
  assert (Hbits : (0 < 64)%Z) by reflexivity.
  assert (Hcalls : (Z.of_nat 3 <= 2 ^ 64)%Z) by discriminate.
  assert (Hlow : (- 2 ^ (64 - 1) <= 0)%Z) by discriminate.
  assert (Hhigh : (0 + Z.of_nat 3 < 2 ^ (64 - 1))%Z) by reflexivity.
  exact (conj (proj1 (Tempvar_names_distinct 64 3 0 Hbits Hcalls))
              (proj2 (Tempvar_names_distinct 64 3 0 Hbits Hcalls) Hlow Hhigh)).
Defined.

(** The definition of an object without descriptions, at indentation 2. *)
Lemma GoTypeDef_indented_witness :
  indented_after_first_line 2
    ("struct {" ++ LF
     ++ TAB ++ TAB ++ TAB ++ "ID int" ++ tagText "id" EmptyString ++ LF
     ++ TAB ++ TAB ++ TAB ++ "Name *string" ++ tagText "name" ",omitempty" ++ LF
     ++ TAB ++ TAB ++ "}")
  = true.
Proof.
  refine (GoTypeDef_indented_without_descriptions range_listed
            IsPrimitivePointer_optional (DSAttribute example_id_name)
            false EmptyString 2 true _ _ _ _ _).
  - discriminate.
  - reflexivity.
  - reflexivity.
  - reflexivity.
Defined.
